(** * Task CRUD service: a shallow embedding of the three variants

    The repository holds one "task" resource three times over:

    - [InMemory]    : [fastapi/main.py], a module-level Python list of dicts;
    - [Relational]  : [APIWithTestCases/fastapiEx/] and
                      [FastAPI With Sqlalcehmy/Postgresql/app/], the same
                      router over a SQLAlchemy session (the two routers
                      differ only in [response_model] decorations and in
                      [get_db]);
    - [Database]    : the two [get_db] generators;
    - [Session]     : the SQLAlchemy session the generators yield, with
                      its transaction, and the routes run on it.

    Handlers are written in state-passing style: a handler takes the store
    and returns what it returns or raises, together with the store it
    leaves behind. *)

From stdpp Require Import base option list gmap strings pretty.
From Stdlib Require Import ZArith Lia Ascii String.

Local Open Scope string_scope.
Local Open Scope list_scope.
Local Open Scope Z_scope.

(** ** Python values, exceptions, HTTP status codes *)

(** The values that occur in request bodies and in the dicts of the
    in-memory store. *)
Inductive value : Type :=
  | VNone
  | VBool (b : bool)
  | VInt (z : Z)
  | VStr (s : string).

Global Instance value_eq_dec : EqDecision value.
Proof. solve_decision. Defined.

(** A JSON object / Python [dict] with string keys. *)
Abbreviation dict := (gmap string value).

(** The request body [{"name": "Buy milk"}]. *)
Definition buy_milk : dict := {[ "name" := VStr "Buy milk" ]}.

(** [fastapi.status] *)
Definition HTTP_200_OK : Z := 200.
Definition HTTP_201_CREATED : Z := 201.
Definition HTTP_204_NO_CONTENT : Z := 204.
Definition HTTP_404_NOT_FOUND : Z := 404.
Definition HTTP_422_UNPROCESSABLE_ENTITY : Z := 422.

(** Exceptions that leave a handler or enter a dependency generator. *)
Inductive exn : Type :=
  | HTTPException (status_code : Z) (detail : string)
  | RequestValidationError (loc : string)
  | KeyError (key : string)
  | SQLAlchemyError (msg : string)
  | GeneratorExit
  | OtherException (msg : string).

(** What a call does: return a value or raise. *)
Inductive outcome (A : Type) : Type :=
  | Return (a : A)
  | Raise (e : exn).
Global Arguments Return {A} a.
Global Arguments Raise {A} e.

(** A response as the client sees it: status code and body. *)
Record response (B : Type) : Type := Response { status_code : Z; body : B }.
Global Arguments Response {B} _ _.
Global Arguments status_code {B} _.
Global Arguments body {B} _.

(** Python's [str(int)], as used by the f-strings of the handlers. *)
Definition str (z : Z) : string := pretty z.

(** ** Text: substrings *)

(** [sub] occurs in [s] (Python's [sub in s]). *)
Definition contains (s sub : string) : Prop :=
  ∃ pre post, s = pre +:+ sub +:+ post.

Fixpoint prefixb (p s : string) : bool :=
  match p, s with
  | EmptyString, _ => true
  | String a p', String b s' => if Ascii.eqb a b then prefixb p' s' else false
  | String _ _, EmptyString => false
  end.

Fixpoint containsb (s sub : string) : bool :=
  prefixb sub s ||
  match s with
  | EmptyString => false
  | String _ s' => containsb s' sub
  end.

(** Membership of a character in a text. *)
Fixpoint occurs (c : ascii) (s : string) : bool :=
  match s with
  | EmptyString => false
  | String a s' => Ascii.eqb c a || occurs c s'
  end.

(** ** Request-body validation (pydantic field declarations)

    A field declared [x: str] takes a JSON string.  A field declared
    [x: bool] takes a JSON boolean and, by pydantic's conversion, the
    numbers 0 and 1 and the words for yes and no in any letter case.
    [Optional[T]] additionally takes [null]. *)

Definition str_field (v : value) : option string :=
  match v with VStr s => Some s | _ => None end.

(** A Python [bool] as it is. *)
Definition python_bool (v : value) : option bool :=
  match v with VBool b => Some b | _ => None end.

Definition lower_ascii (c : ascii) : ascii :=
  let n := nat_of_ascii c in
  if (65 <=? n)%nat && (n <=? 90)%nat then ascii_of_nat (n + 32) else c.

Fixpoint lower (s : string) : string :=
  match s with
  | EmptyString => EmptyString
  | String c s' => String (lower_ascii c) (lower s')
  end.

Definition BOOL_TRUE : list string := ["1"; "on"; "t"; "true"; "y"; "yes"].
Definition BOOL_FALSE : list string := ["0"; "off"; "f"; "false"; "n"; "no"].

Definition bool_field (v : value) : option bool :=
  match v with
  | VBool b => Some b
  | VInt 1 => Some true
  | VInt 0 => Some false
  | VStr s =>
      if bool_decide (lower s ∈ BOOL_TRUE) then Some true
      else if bool_decide (lower s ∈ BOOL_FALSE) then Some false
      else None
  | _ => None
  end.

Definition optional_field {A} (f : value → option A) (v : value)
  : option (option A) :=
  match v with
  | VNone => Some None
  | _ => match f v with Some a => Some (Some a) | None => None end
  end.

(** A required field: absent or ill-typed is a validation error. *)
Definition required {A} (key : string) (f : value → option A) (body : dict)
  : outcome A :=
  match body !! key with
  | None => Raise (RequestValidationError key)
  | Some v =>
      match f v with
      | Some a => Return a
      | None => Raise (RequestValidationError key)
      end
  end.

(** A field with a default: absent takes the default, present is checked. *)
Definition defaulted {A} (key : string) (f : value → option A) (d : A)
  (body : dict) : outcome A :=
  match body !! key with
  | None => Return d
  | Some v =>
      match f v with
      | Some a => Return a
      | None => Raise (RequestValidationError key)
      end
  end.

(** A field with a default that also records whether it was set
    ([__fields_set__], read by [dict(exclude_unset=True)]):
    [None] is unset, [Some a] is set to [a]. *)
Definition tracked {A} (key : string) (f : value → option A) (body : dict)
  : outcome (option A) :=
  match body !! key with
  | None => Return None
  | Some v =>
      match f v with
      | Some a => Return (Some a)
      | None => Raise (RequestValidationError key)
      end
  end.

(** Sequencing of calls that may raise, with stdpp's [x ← m; k]. *)
Global Instance outcome_ret : MRet outcome := λ A a, Return a.
Global Instance outcome_bind : MBind outcome := λ A B k m,
  match m with
  | Return a => k a
  | Raise e => Raise e
  end.

(** FastAPI's default exception handlers: the status code the client
    receives for what a route returned or raised. *)
Definition status_of {B} (o : outcome (response B)) : Z :=
  match o with
  | Return r => status_code r
  | Raise (HTTPException c _) => c
  | Raise (RequestValidationError _) => HTTP_422_UNPROCESSABLE_ENTITY
  | Raise _ => 500
  end.

(** Python's [==] on the values above ([bool] is a subclass of [int]). *)
Definition as_int (v : value) : option Z :=
  match v with
  | VInt z => Some z
  | VBool b => Some (if b then 1 else 0)
  | _ => None
  end.

Definition py_eq (a b : value) : bool :=
  match as_int a, as_int b with
  | Some x, Some y => Z.eqb x y
  | None, None => bool_decide (a = b)
  | _, _ => false
  end.

(** ** [random.randrange]

    The generator's next draw is an input of the model.
    [randrange(start, stop)] is [start + _randbelow(stop - start)], and
    [_randbelow(n)] reduces the draw into [0 <= k < n]. *)
Definition randbelow (n : Z) (draw : N) : Z := Z.of_N draw `mod` n.

Definition randrange (start stop : Z) (draw : N) : Z :=
  start + randbelow (stop - start) draw.

(** * The in-memory variant: [fastapi/main.py] *)
Module InMemory.

(** [class Task(BaseModel)] *)
Record Task : Type := mkTask {
  name : string;
  task : string;
  completed : bool;
}.

(** Validation of a request body against [Task]. *)
Definition Task_validate (body : dict) : outcome Task :=
  name ← required "name" str_field body;
  task ← required "task" str_field body;
  completed ← defaulted "completed" bool_field false body;
  mret (mkTask name task completed).

(** [Task.dict()] *)
Definition Task_dict (t : Task) : dict :=
  {[ "name" := VStr (name t);
     "task" := VStr (task t);
     "completed" := VBool (completed t) ]}.

(** The module-level list, as it is when the program starts. *)
Definition my_tasks : list dict :=
  [ {[ "id" := VInt 1; "name" := VStr "test1"; "task" := VStr "test1" ]};
    {[ "id" := VInt 2; "name" := VStr "test2"; "task" := VStr "test2" ]} ].

(** [for index, task in enumerate(my_tasks)], from position [index] on.
    [task["id"]] raises [KeyError] on a dict without that key; falling
    off the loop returns [None]. *)
Fixpoint find_post_index_from (index : nat) (tasks : list dict) (id : Z)
  : outcome (option nat) :=
  match tasks with
  | [] => Return None
  | task :: rest =>
      match task !! "id" with
      | None => Raise (KeyError "id")
      | Some v =>
          if py_eq v (VInt id) then Return (Some index)
          else find_post_index_from (S index) rest id
      end
  end.

Definition find_post_index (tasks : list dict) (id : Z)
  : outcome (option nat) :=
  find_post_index_from 0 tasks id.

(** Response bodies of this variant. *)
Inductive content : Type :=
  | data_list (tasks : list dict)     (* [{"data": my_tasks}] *)
  | data_task (task : dict)           (* [{"data": task}] *)
  | empty.                            (* [Response(status_code=...)] *)

Definition not_found (id : Z) : exn :=
  HTTPException HTTP_404_NOT_FOUND ("Task not found with this id " +:+ str id).

(** [@app.get("/tasks")]: no parameters are declared. *)
Definition get_tasks (tasks : list dict)
  : outcome (response content) * list dict :=
  (Return (Response HTTP_200_OK (data_list tasks)), tasks).

(** [@app.post("/tasks", status_code=status.HTTP_201_CREATED)] *)
Definition create_task (new_task : Task) (draw : N) (tasks : list dict)
  : outcome (response content) * list dict :=
  let task := Task_dict new_task in
  let task := <["id" := VInt (randrange 3 10000 draw)]> task in
  let tasks := tasks ++ [task] in
  (Return (Response HTTP_201_CREATED (data_task task)), tasks).

(** [@app.delete("/tasks/{id}")] *)
Definition delete_task (id : Z) (tasks : list dict)
  : outcome (response content) * list dict :=
  match find_post_index tasks id with
  | Raise e => (Raise e, tasks)
  | Return None => (Raise (not_found id), tasks)
  | Return (Some index) =>
      let tasks := delete index tasks in
      (Return (Response HTTP_204_NO_CONTENT empty), tasks)
  end.

(** [@app.put("/tasks/{id}")] *)
Definition update_task (id : Z) (update_post : Task) (tasks : list dict)
  : outcome (response content) * list dict :=
  match find_post_index tasks id with
  | Raise e => (Raise e, tasks)
  | Return None => (Raise (not_found id), tasks)
  | Return (Some index) =>
      let task := Task_dict update_post in
      let task := <["id" := VInt id]> task in
      let tasks := <[index := task]> tasks in
      (Return (Response HTTP_200_OK (data_task task)), tasks)
  end.

(** The routes with their body parameter: FastAPI validates the body
    against the declared type and calls the handler only on success. *)
Definition post_tasks (body : dict) (draw : N) (tasks : list dict)
  : outcome (response content) * list dict :=
  match Task_validate body with
  | Raise e => (Raise e, tasks)
  | Return new_task => create_task new_task draw tasks
  end.

Definition put_tasks (id : Z) (body : dict) (tasks : list dict)
  : outcome (response content) * list dict :=
  match Task_validate body with
  | Raise e => (Raise e, tasks)
  | Return update_post => update_task id update_post tasks
  end.

(** The ids held by the store, in order. *)
Definition ids (tasks : list dict) : list (option value) :=
  (λ t : dict, t !! "id") <$> tasks.

(** Every record carries an integer id: true of the seeded list and kept
    by every handler. *)
Definition keyed (tasks : list dict) : Prop :=
  Forall (λ t : dict, ∃ z, t !! "id" = Some (VInt z)) tasks.

(** The requests of the HTTP surface, what each is answered and the list
    each leaves. *)
Inductive request : Type :=
  | GET_tasks
  | POST_tasks (body : dict) (draw : N)
  | DELETE_tasks (id : Z)
  | PUT_tasks (id : Z) (body : dict).

Definition handle (tasks : list dict) (req : request)
  : outcome (response content) * list dict :=
  match req with
  | GET_tasks => get_tasks tasks
  | POST_tasks body draw => post_tasks body draw tasks
  | DELETE_tasks id => delete_task id tasks
  | PUT_tasks id body => put_tasks id body tasks
  end.

Definition serve (tasks : list dict) (req : request) : list dict :=
  (handle tasks req).2.

Definition serve_all (tasks : list dict) (reqs : list request) : list dict :=
  foldl serve tasks reqs.

End InMemory.

(** ** SQL [LIKE]

    A text is held as its UTF-8 encoding.  [%] matches any run of
    characters, [_] any one character, and a backslash takes the character
    after it literally (PostgreSQL's default escape character; the engine
    of [DATABASE_URL]).  A pattern that ends in a lone backslash is refused
    by the engine; it matches nothing here. *)

(** The bytes 10xxxxxx that continue a character, and the bytes 1xxxxxxx
    that belong to a character of more than one byte. *)
Definition continuation (c : ascii) : bool :=
  match c with Ascii _ _ _ _ _ _ b6 b7 => b7 && negb b6 end.

Definition multibyte (c : ascii) : bool :=
  match c with Ascii _ _ _ _ _ _ _ b7 => b7 end.

Fixpoint skip_continuation (s : string) : string :=
  match s with
  | String c s' => if continuation c then skip_continuation s' else s
  | EmptyString => s
  end.

(** The text after its first character. *)
Definition after_character (c : ascii) (s' : string) : string :=
  if multibyte c then skip_continuation s' else s'.

Fixpoint some_suffix (k : string → bool) (s : string) : bool :=
  k s ||
  match s with
  | EmptyString => false
  | String _ s' => some_suffix k s'
  end.

Fixpoint like (pattern s : string) {struct pattern} : bool :=
  match pattern with
  | EmptyString =>
      match s with EmptyString => true | String _ _ => false end
  | String c p =>
      if Ascii.eqb c "%" then some_suffix (like p) s
      else if Ascii.eqb c "_" then
        match s with
        | String a s' => like p (after_character a s')
        | EmptyString => false
        end
      else if Ascii.eqb c "\" then
        match p, s with
        | String e p', String a s' => Ascii.eqb e a && like p' s'
        | _, _ => false
        end
      else
        match s with
        | String a s' => Ascii.eqb c a && like p s'
        | EmptyString => false
        end
  end.

(** [column.contains(other)] renders [column LIKE '%' || other || '%'];
    [other] is embedded as it is ([autoescape] is off by default). *)
Definition contains_pattern (other : string) : string :=
  "%" +:+ other +:+ "%".

(** The characters [LIKE] gives a meaning to. *)
Definition like_special (c : ascii) : bool :=
  Ascii.eqb c "%" || Ascii.eqb c "_" || Ascii.eqb c "\".

Fixpoint literal (s : string) : bool :=
  match s with
  | EmptyString => true
  | String c s' => negb (like_special c) && literal s'
  end.

(** ** Statement parameters

    The driver sends a text as a string literal and refuses one that holds
    the NUL character ([ValueError]), before anything reaches the engine. *)
Definition NUL : ascii := "000"%char.

Definition bindable (s : string) : bool := negb (occurs NUL s).

Definition bindable_value (v : value) : bool :=
  match v with VStr s => bindable s | _ => true end.

Definition ValueError : exn := OtherException "ValueError".

(** * The relational variants: [fastapiEx/] and [Postgresql/app/] *)
Module Relational.

(** [models.py] *)
Module models.
(** A row of table [tasks].  [name], [completed] and [created_at] are
    [nullable=False]; [description] is nullable. *)
Record Task : Type := mkTask {
  id : Z;
  name : string;
  description : option string;
  completed : bool;
  created_at : Z;
}.

Global Instance Task_eq_dec : EqDecision Task.
Proof. solve_decision. Defined.
End models.

(** [schemas.py] *)
Module schemas.
(** [TaskBase] / [TaskCreate] *)
Module TaskCreate.
Record t : Type := mk {
  name : string;
  description : option string;
  completed : bool;
}.

Definition validate (body : dict) : outcome t :=
  name ← required "name" str_field body;
  description ←
    defaulted "description" (optional_field str_field) None body;
  completed ← defaulted "completed" bool_field false body;
  mret (mk name description completed).
End TaskCreate.

(** [TaskUpdate]: every field [Optional[...] = None].  The outer
    option is membership in [__fields_set__], the inner one is
    [null]. *)
Module TaskUpdate.
Record t : Type := mk {
  name : option (option string);
  description : option (option string);
  completed : option (option bool);
}.

Definition validate (body : dict) : outcome t :=
  name ← tracked "name" (optional_field str_field) body;
  description ← tracked "description" (optional_field str_field) body;
  completed ← tracked "completed" (optional_field bool_field) body;
  mret (mk name description completed).

Definition item {A} (key : string) (inj : A → value)
  (field : option (option A)) : list (string * value) :=
  match field with
  | None => []
  | Some None => [(key, VNone)]
  | Some (Some a) => [(key, inj a)]
  end.

(** [dict(exclude_unset=True).items()] *)
Definition dict_exclude_unset (u : t) : list (string * value) :=
  item "name" VStr (name u) ++
  item "description" VStr (description u) ++
  item "completed" VBool (completed u).
End TaskUpdate.

(** [Task], the [response_model] of the routes that declare one. *)
Module Task.
Record t : Type := mk {
  id : Z;
  name : string;
  description : option string;
  completed : bool;
}.

End Task.
End schemas.

(** The database behind a session: the rows of [tasks] in storage order
    and the next value of the sequence that feeds the [id] column. *)
Record database : Type := mkDatabase {
  tasks : list models.Task;
  tasks_id_seq : Z;
}.

(** What [Base.metadata.create_all] leaves on a fresh engine. *)
Definition create_all : database := mkDatabase [] 1.

Definition ids (db : database) : list Z := models.id <$> tasks db.

(** The primary key: ids are pairwise distinct, and the sequence is ahead
    of every id it has handed out. *)
Definition consistent (db : database) : Prop :=
  NoDup (ids db) ∧ ∀ i, i ∈ ids db → i < tasks_id_seq db.

(** *** The mapped object: attribute access on a loaded row *)

Definition opt_str (o : option string) : value :=
  match o with Some s => VStr s | None => VNone end.

Definition attrs (r : models.Task) : dict :=
  {[ "id" := VInt (models.id r);
     "name" := VStr (models.name r);
     "description" := opt_str (models.description r);
     "completed" := VBool (models.completed r);
     "created_at" := VInt (models.created_at r) ]}.

(** [setattr(task, key, value)] *)
Definition setattr (task : dict) (key : string) (v : value) : dict :=
  <[key := v]> task.

(** The row an attribute dict flushes to; [None] when a column
    constraint ([nullable=False], the column type) refuses it. *)
Definition flush_row (task : dict) : option models.Task :=
  id ← task !! "id" ≫= (λ v, match v with VInt z => Some z | _ => None end);
  name ← task !! "name" ≫= str_field;
  description ← task !! "description" ≫= optional_field str_field;
  completed ← task !! "completed" ≫= python_bool;
  created_at ←
    task !! "created_at" ≫= (λ v, match v with VInt z => Some z | _ => None end);
  Some (models.mkTask id name description completed created_at).

Definition IntegrityError : exn := SQLAlchemyError "IntegrityError".
Definition DataError : exn := SQLAlchemyError "DataError".

(** *** Queries *)

(** [db.query(models.Task).filter(models.Task.id == task_id).first()] *)
Definition query_first (db : database) (task_id : Z) : option models.Task :=
  head (filter (λ r, models.id r = task_id) (tasks db)).

(** [INSERT INTO tasks (name, description, completed) ... RETURNING id]:
    a text the driver refuses stops the statement before it is sent;
    otherwise the id comes from the sequence, which advances whether or
    not the primary key accepts the row. *)
Definition insert (task : schemas.TaskCreate.t) (now : Z) (db : database)
  : outcome models.Task * database :=
  let id := tasks_id_seq db in
  let row :=
    models.mkTask id (schemas.TaskCreate.name task)
      (schemas.TaskCreate.description task)
      (schemas.TaskCreate.completed task) now in
  if negb (bindable (schemas.TaskCreate.name task) &&
           from_option bindable true (schemas.TaskCreate.description task))
  then (Raise ValueError, db)
  else if bool_decide (id ∈ ids db)
  then (Raise IntegrityError, mkDatabase (tasks db) (id + 1))
  else (Return row, mkDatabase (tasks db ++ [row]) (id + 1)).

(** [UPDATE tasks SET ... WHERE tasks.id = task_id]: the engine writes a
    new version of the row, which a [SELECT] without [ORDER BY] then lists
    after the rows that were not updated. *)
Definition update_row (task_id : Z) (row : models.Task) (db : database)
  : database :=
  mkDatabase (filter (λ r, models.id r ≠ task_id) (tasks db) ++ [row])
    (tasks_id_seq db).

(** [DELETE FROM tasks WHERE tasks.id = task_id] *)
Definition delete_row (task_id : Z) (db : database) : database :=
  mkDatabase (filter (λ r, models.id r ≠ task_id) (tasks db))
    (tasks_id_seq db).

Definition not_found (task_id : Z) : exn :=
  HTTPException HTTP_404_NOT_FOUND
    ("Task with id: " +:+ str task_id +:+ " not found").

Definition does_not_exist (task_id : Z) : exn :=
  HTTPException HTTP_404_NOT_FOUND
    ("Task with id: " +:+ str task_id +:+ " does not exist").

(** *** [router.py] *)

(** [@router.get("/")]: [SELECT ... WHERE name LIKE ... LIMIT limit
    OFFSET skip]; the driver refuses a search term with NUL, and the
    engine refuses a [LIMIT] or [OFFSET] that is negative or does not fit
    its 64-bit integer. *)
Definition get_tasks (limit skip : Z) (search : string) (db : database)
  : outcome (response (list models.Task)) * database :=
  let matching :=
    filter (λ r, like (contains_pattern search) (models.name r)) (tasks db) in
  if negb (bindable search) then (Raise ValueError, db)
  else if bool_decide (limit < 0 ∨ skip < 0 ∨ 2 ^ 63 ≤ limit ∨ 2 ^ 63 ≤ skip)
  then (Raise DataError, db)
  else
    let rows := take (Z.to_nat limit) (drop (Z.to_nat skip) matching) in
    (Return (Response HTTP_200_OK rows), db).

(** [@router.post("/", status_code=status.HTTP_201_CREATED)] *)
Definition create_task (task : schemas.TaskCreate.t) (now : Z)
  (db : database) : outcome (response models.Task) * database :=
  match insert task now db with
  | (Raise e, db) => (Raise e, db)
  | (Return new_task, db) =>
      (Return (Response HTTP_201_CREATED new_task), db)
  end.

(** [@router.get("/{task_id}")] *)
Definition get_task (task_id : Z) (db : database)
  : outcome (response models.Task) * database :=
  match query_first db task_id with
  | None => (Raise (not_found task_id), db)
  | Some task => (Return (Response HTTP_200_OK task), db)
  end.

(** [@router.delete("/{task_id}", status_code=status.HTTP_204_NO_CONTENT)] *)
Definition delete_task (task_id : Z) (db : database)
  : outcome (response unit) * database :=
  match query_first db task_id with
  | None => (Raise (does_not_exist task_id), db)
  | Some task =>
      let db := delete_row (models.id task) db in
      (Return (Response HTTP_204_NO_CONTENT ()), db)
  end.

(** [for key, value in updated_task.dict(exclude_unset=True).items():
    setattr(task, key, value)] *)
Definition apply_update (updated_task : schemas.TaskUpdate.t) (task : dict)
  : dict :=
  foldl (λ obj kv, setattr obj kv.1 kv.2) task
    (schemas.TaskUpdate.dict_exclude_unset updated_task).

(** The attributes the loop left different from what was loaded: the
    values the [UPDATE] sends. *)
Definition dirty_params (loaded task : dict) : list value :=
  omap (λ key : string,
          if bool_decide (task !! key = loaded !! key) then None
          else task !! key)
    ["name"; "description"; "completed"].

(** [db.commit()] after the loop.  With no attribute changed nothing is
    written.  Otherwise the changed values are sent: the driver refuses a
    text with NUL, the table refuses a row against its column constraints,
    and an accepted row is written. *)
Definition commit_update (task_id : Z) (loaded task : dict) (db : database)
  : outcome database :=
  if bool_decide (task = loaded) then Return db
  else if negb (forallb bindable_value (dirty_params loaded task))
  then Raise ValueError
  else
    match flush_row task with
    | None => Raise IntegrityError
    | Some row => Return (update_row task_id row db)
    end.

(** What an update of a stored row sends. *)
Definition sends (updated_task : schemas.TaskUpdate.t) (stored : models.Task)
  : list value :=
  dirty_params (attrs stored) (apply_update updated_task (attrs stored)).

(** [@router.put("/{task_id}", response_model=schemas.Task)] *)
Definition update_task (task_id : Z) (updated_task : schemas.TaskUpdate.t)
  (db : database) : outcome (response models.Task) * database :=
  match query_first db task_id with
  | None => (Raise (does_not_exist task_id), db)
  | Some task =>
      let loaded := attrs task in
      let task' := apply_update updated_task loaded in
      match commit_update (models.id task) loaded task' db with
      | Raise e => (Raise e, db)
      | Return db =>
          match query_first db (models.id task) with
          | Some task => (Return (Response HTTP_200_OK task), db)
          | None => (Raise (OtherException "InvalidRequestError"), db)
          end
      end
  end.

(** The routes with a body parameter. *)
Definition post_tasks (body : dict) (now : Z) (db : database)
  : outcome (response models.Task) * database :=
  match schemas.TaskCreate.validate body with
  | Raise e => (Raise e, db)
  | Return task => create_task task now db
  end.

Definition put_tasks (task_id : Z) (body : dict) (db : database)
  : outcome (response models.Task) * database :=
  match schemas.TaskUpdate.validate body with
  | Raise e => (Raise e, db)
  | Return updated_task => update_task task_id updated_task db
  end.

(** The requests of the HTTP surface, and the database each leaves. *)
Inductive request : Type :=
  | GET_tasks (limit skip : Z) (search : string)
  | POST_tasks (body : dict) (now : Z)
  | GET_task (task_id : Z)
  | DELETE_task (task_id : Z)
  | PUT_task (task_id : Z) (body : dict).

Definition serve (db : database) (req : request) : database :=
  match req with
  | GET_tasks limit skip search => (get_tasks limit skip search db).2
  | POST_tasks body now => (post_tasks body now db).2
  | GET_task task_id => (get_task task_id db).2
  | DELETE_task task_id => (delete_task task_id db).2
  | PUT_task task_id body => (put_tasks task_id body db).2
  end.

Definition serve_all (db : database) (reqs : list request) : database :=
  foldl serve db reqs.

(** The row a partial update asks for: a field that is set replaces the
    stored one, a field that is not set keeps it.  There is no such row
    when [name] or [completed] is set to [null]. *)
Definition set_or_keep {A} (field : option (option A)) (stored : A)
  : option A :=
  match field with
  | None => Some stored
  | Some None => None
  | Some (Some a) => Some a
  end.

Definition patched (u : schemas.TaskUpdate.t) (stored : models.Task)
  : option models.Task :=
  name ← set_or_keep (schemas.TaskUpdate.name u) (models.name stored);
  completed ←
    set_or_keep (schemas.TaskUpdate.completed u) (models.completed stored);
  Some (models.mkTask (models.id stored) name
          (default (models.description stored)
             (schemas.TaskUpdate.description u))
          completed (models.created_at stored)).

(** The list operation as the specification words it: the tasks whose
    name contains [search], the first [skip] of them dropped, at most
    [limit] of the rest. *)
Definition spec_list (limit skip : nat) (search : string)
  (rows : list models.Task) : list models.Task :=
  take limit
    (drop skip (filter (λ r, containsb (models.name r) search) rows)).

(** The scenario of the specification: one task, created from
    [{"name": "Buy milk"}] on a fresh table. *)
Definition one_task : database := serve create_all (POST_tasks buy_milk 0).

End Relational.

(** * The session dependency: the two [database.py]

    [get_db] is a generator: it opens a session, yields it to the request,
    and is resumed when the request is over, either normally or by the
    request's exception thrown in at the [yield].  The model is the part
    after the [yield]: the calls made on the session, in order, and how
    the generator ends. *)
Module Database.

Inductive call : Type :=
  | print (msg : string)
  | rollback
  | close.

Global Instance call_eq_dec : EqDecision call.
Proof. solve_decision. Defined.

Inductive resume : Type :=
  | next
  | throw (e : exn).

(** [FastAPI With Sqlalcehmy/Postgresql/app/database.py]:
    [try: yield db / except SQLAlchemyError as e: print; db.rollback() /
    finally: db.close()] *)
Module Postgresql.
Definition get_db (r : resume) : list call * outcome unit :=
  match r with
  | next => ([close], Return ())
  | throw (SQLAlchemyError msg) =>
      ([print ("An error occurred: " +:+ msg); rollback; close], Return ())
  | throw e => ([close], Raise e)
  end.
End Postgresql.

(** [APIWithTestCases/fastapiEx/database.py]:
    [try: yield db / finally: db.close()] *)
Module fastapiEx.
Definition get_db (r : resume) : list call * outcome unit :=
  match r with
  | next => ([close], Return ())
  | throw e => ([close], Raise e)
  end.
End fastapiEx.

(** A request under a [get_db]: the handler runs on the yielded session,
    and what it raises is thrown into the generator. *)
Definition with_db {A} (get_db : resume → list call * outcome unit)
  (handled : outcome A) : list call * outcome unit :=
  match handled with
  | Return _ => get_db next
  | Raise e => get_db (throw e)
  end.

End Database.

(** * The session: [sqlalchemy.orm.Session] on the table

    [SessionLocal()] gives a session without a transaction.  The first
    statement begins one; what the statements of a transaction write is
    seen by that transaction only, until [commit] publishes it.
    [rollback] and [close] end a transaction in flight and publish
    nothing; the values the sequence has handed out are not taken back. *)
Module Session.

Record session : Type := mkSession {
  committed : Relational.database;
  in_flight : option Relational.database;
}.

Definition SessionLocal (db : Relational.database) : session :=
  mkSession db None.

(** The table as the session reads it. *)
Definition view (s : session) : Relational.database :=
  default (committed s) (in_flight s).

(** A statement, in the transaction in flight or in the one it begins. *)
Definition execute {A}
  (statement : Relational.database → outcome A * Relational.database)
  (s : session) : outcome A * session :=
  let result := statement (view s) in
  (result.1, mkSession (committed s) (Some result.2)).

(** [db.rollback()] *)
Definition rollback (s : session) : session :=
  mkSession
    (Relational.mkDatabase (Relational.tasks (committed s))
       (Relational.tasks_id_seq (view s)))
    None.

(** [db.close()]: the connection goes back to the pool, which rolls back
    what is in flight on it. *)
Definition close (s : session) : session := rollback s.

(** [db.commit()]: the pending changes are flushed and the transaction is
    committed; when the flush raises, the session rolls the transaction
    back and the exception goes on. *)
Definition commit {A}
  (flush : Relational.database → outcome A * Relational.database)
  (s : session) : outcome A * session :=
  match execute flush s with
  | (Return a, s) => (Return a, mkSession (view s) None)
  | (Raise e, s) => (Raise e, rollback s)
  end.

(** [db.query(models.Task).filter(models.Task.id == task_id).first()] *)
Definition first (task_id : Z) (db : Relational.database)
  : outcome (option Relational.models.Task) * Relational.database :=
  (Return (Relational.query_first db task_id), db).

(** [db.refresh(task)] *)
Definition refresh (task : Relational.models.Task) (db : Relational.database)
  : outcome Relational.models.Task * Relational.database :=
  match Relational.query_first db (Relational.models.id task) with
  | Some row => (Return row, db)
  | None => (Raise (OtherException "InvalidRequestError"), db)
  end.

(** The flush of an update and of a delete. *)
Definition flush_update (task_id : Z) (loaded task : dict)
  (db : Relational.database) : outcome unit * Relational.database :=
  match Relational.commit_update task_id loaded task db with
  | Raise e => (Raise e, db)
  | Return db => (Return (), db)
  end.

Definition flush_delete (task_id : Z) (db : Relational.database)
  : outcome unit * Relational.database :=
  (Return (), Relational.delete_row task_id db).

(** The routes of [router.py] on the session that [get_db] yields. *)
Definition get_tasks (limit skip : Z) (search : string) (db : session)
  : outcome (response (list Relational.models.Task)) * session :=
  execute (Relational.get_tasks limit skip search) db.

Definition create_task (task : Relational.schemas.TaskCreate.t) (now : Z)
  (db : session) : outcome (response Relational.models.Task) * session :=
  match commit (Relational.insert task now) db with
  | (Raise e, db) => (Raise e, db)
  | (Return new_task, db) =>
      match execute (refresh new_task) db with
      | (Raise e, db) => (Raise e, db)
      | (Return new_task, db) =>
          (Return (Response HTTP_201_CREATED new_task), db)
      end
  end.

Definition get_task (task_id : Z) (db : session)
  : outcome (response Relational.models.Task) * session :=
  match execute (first task_id) db with
  | (Raise e, db) => (Raise e, db)
  | (Return None, db) => (Raise (Relational.not_found task_id), db)
  | (Return (Some task), db) => (Return (Response HTTP_200_OK task), db)
  end.

Definition delete_task (task_id : Z) (db : session)
  : outcome (response unit) * session :=
  match execute (first task_id) db with
  | (Raise e, db) => (Raise e, db)
  | (Return None, db) => (Raise (Relational.does_not_exist task_id), db)
  | (Return (Some task), db) =>
      match commit (flush_delete (Relational.models.id task)) db with
      | (Raise e, db) => (Raise e, db)
      | (Return _, db) => (Return (Response HTTP_204_NO_CONTENT ()), db)
      end
  end.

Definition update_task (task_id : Z)
  (updated_task : Relational.schemas.TaskUpdate.t) (db : session)
  : outcome (response Relational.models.Task) * session :=
  match execute (first task_id) db with
  | (Raise e, db) => (Raise e, db)
  | (Return None, db) => (Raise (Relational.does_not_exist task_id), db)
  | (Return (Some task), db) =>
      let loaded := Relational.attrs task in
      let task' := Relational.apply_update updated_task loaded in
      match commit (flush_update (Relational.models.id task) loaded task') db
      with
      | (Raise e, db) => (Raise e, db)
      | (Return _, db) =>
          match execute (refresh task) db with
          | (Raise e, db) => (Raise e, db)
          | (Return task, db) => (Return (Response HTTP_200_OK task), db)
          end
      end
  end.

Definition post_tasks (body : dict) (now : Z) (db : session)
  : outcome (response Relational.models.Task) * session :=
  match Relational.schemas.TaskCreate.validate body with
  | Raise e => (Raise e, db)
  | Return task => create_task task now db
  end.

Definition put_tasks (task_id : Z) (body : dict) (db : session)
  : outcome (response Relational.models.Task) * session :=
  match Relational.schemas.TaskUpdate.validate body with
  | Raise e => (Raise e, db)
  | Return updated_task => update_task task_id updated_task db
  end.

(** A request on a session: the status it answers with or the exception
    it raises, and the session as the route leaves it. *)
Definition answered {B} (o : outcome (response B)) : outcome Z :=
  match o with
  | Return r => Return (status_code r)
  | Raise e => Raise e
  end.

Definition route (req : Relational.request) (db : session)
  : outcome Z * session :=
  match req with
  | Relational.GET_tasks limit skip search =>
      let r := get_tasks limit skip search db in (answered r.1, r.2)
  | Relational.POST_tasks body now =>
      let r := post_tasks body now db in (answered r.1, r.2)
  | Relational.GET_task task_id =>
      let r := get_task task_id db in (answered r.1, r.2)
  | Relational.DELETE_task task_id =>
      let r := delete_task task_id db in (answered r.1, r.2)
  | Relational.PUT_task task_id body =>
      let r := put_tasks task_id body db in (answered r.1, r.2)
  end.

(** The calls of a [get_db] after its [yield], on the session. *)
Definition perform (s : session) (c : Database.call) : session :=
  match c with
  | Database.print _ => s
  | Database.rollback => rollback s
  | Database.close => close s
  end.

(** What the client is sent once [get_db] has ended.  An exception of the
    route that [get_db] does not let through leaves FastAPI without a
    response, which it answers as a server error. *)
Definition client_status (handled : outcome Z) (ended : outcome unit) : Z :=
  match ended, handled with
  | Raise e, _ => status_of (Raise e : outcome (response unit))
  | Return _, Return code => code
  | Return _, Raise _ => 500
  end.

(** A request from [SessionLocal()] to the end of [get_db]: the status
    the client is sent and the session as it is left. *)
Definition request_under
  (get_db : Database.resume → list Database.call * outcome unit)
  (req : Relational.request) (db : Relational.database) : Z * session :=
  let r := route req (SessionLocal db) in
  let g := Database.with_db get_db r.1 in
  (client_status r.1 g.2, foldl perform r.2 g.1).

End Session.

(** * Properties *)

(** ** Text *)

Local Arguments String.append !_ _ / : simpl nomatch.

Lemma append_nil_r (s : string) : s +:+ "" = s.
Proof. induction s as [|a s IH]; simpl; [done | by rewrite IH]. Qed.

Lemma append_assoc (a b c : string) : (a +:+ b) +:+ c = a +:+ b +:+ c.
Proof. induction a as [|x a IH]; simpl; [done | by rewrite IH]. Qed.

Lemma prefixb_spec (p s : string) :
  prefixb p s = true ↔ ∃ post, s = p +:+ post.
Proof.
  revert s. induction p as [|a p IH]; intros s; simpl.
  - split; [intros _; by exists s | done].
  - destruct s as [|b s].
    + split; [done | intros [post H]; discriminate].
    + destruct (Ascii.eqb_spec a b) as [->|Hne].
      * rewrite IH. split; intros [post H]; exists post; [by rewrite H|].
        by injection H.
      * split; [done | intros [post H]; injection H; congruence].
Qed.

Lemma containsb_spec (s sub : string) :
  containsb s sub = true ↔ contains s sub.
Proof.
  unfold contains. induction s as [|a s IH]; simpl.
  - rewrite orb_false_r, prefixb_spec. split.
    + intros [post H]. by exists "", post.
    + intros ([|b pre] & post & H); [by exists post | discriminate].
  - rewrite orb_true_iff, prefixb_spec, IH. split.
    + intros [[post H] | (pre & post & H)].
      * by exists "", post.
      * exists (String a pre), post. simpl. by rewrite H.
    + intros ([|b pre] & post & H).
      * left. by exists post.
      * right. injection H as _ H. by exists pre, post.
Qed.

Lemma containsb_false (s sub : string) :
  containsb s sub = false ↔ ¬ contains s sub.
Proof. rewrite <-containsb_spec. by destruct (containsb s sub). Qed.

Lemma containsb_empty (s : string) : containsb s "" = true.
Proof. by destruct s. Qed.

(** ** [LIKE] on a search term without special characters *)

Lemma some_suffix_ext (k1 k2 : string → bool) (s : string) :
  (∀ x, k1 x = k2 x) → some_suffix k1 s = some_suffix k2 s.
Proof.
  intros Hk. induction s as [|a s IH]; simpl; [by rewrite Hk|].
  by rewrite Hk, IH.
Qed.

Lemma some_suffix_prefixb (p s : string) :
  some_suffix (prefixb p) s = containsb s p.
Proof. induction s as [|a s IH]; simpl; [done | by rewrite IH]. Qed.

Lemma some_suffix_end (k : string → bool) (s : string) :
  k "" = true → some_suffix k s = true.
Proof.
  intros Hk. induction s as [|a s IH]; simpl.
  - by rewrite Hk.
  - rewrite IH. apply orb_true_r.
Qed.

Lemma like_percent (s : string) : like "%" s = true.
Proof.
  change (like "%" s) with (some_suffix (like "") s).
  by apply some_suffix_end.
Qed.

Lemma like_cons_literal (c : ascii) (p s : string) :
  like_special c = false →
  like (String c p) s =
    match s with
    | String a s' => Ascii.eqb c a && like p s'
    | EmptyString => false
    end.
Proof.
  unfold like_special. intros H.
  apply orb_false_elim in H as [H H3]. apply orb_false_elim in H as [H1 H2].
  simpl. by rewrite H1, H2, H3.
Qed.

Lemma like_literal_prefix (p s : string) :
  literal p = true → like (p +:+ "%") s = prefixb p s.
Proof.
  revert s. induction p as [|c p IH]; intros s Hp.
  - apply like_percent.
  - simpl in Hp. apply andb_true_iff in Hp as [Hc Hp].
    apply negb_true_iff in Hc.
    change (String c p +:+ "%") with (String c (p +:+ "%")).
    rewrite like_cons_literal by done.
    destruct s as [|a s]; simpl; [done|].
    rewrite IH by done. by destruct (Ascii.eqb c a).
Qed.

Lemma like_contains_literal (search s : string) :
  literal search = true →
  like (contains_pattern search) s = containsb s search.
Proof.
  intros Hlit. unfold contains_pattern.
  change ("%" +:+ search +:+ "%") with (String "%" (search +:+ "%")).
  rewrite <-some_suffix_prefixb.
  change (like (String "%" (search +:+ "%")) s)
    with (some_suffix (like (search +:+ "%")) s).
  apply some_suffix_ext. intros x. by apply like_literal_prefix.
Qed.

(** Unescaped, the same characters widen the match. *)
Example like_underscore : like (contains_pattern "_") "ab" = true.
Proof. reflexivity. Qed.

Example like_percent_sign : like (contains_pattern "a%b") "axxb" = true.
Proof. reflexivity. Qed.

Example like_backslash : like (contains_pattern "\") "a\b" = false.
Proof. reflexivity. Qed.

(** ** The relational store *)

Section relational_store.
Import Relational.

Implicit Types (db : database) (r row : models.Task) (task_id : Z).

Lemma consistent_create_all : consistent create_all.
Proof.
  split; [constructor | intros i Hi; by apply elem_of_nil in Hi].
Qed.

Lemma query_first_Some db task_id r :
  query_first db task_id = Some r → r ∈ tasks db ∧ models.id r = task_id.
Proof.
  unfold query_first. intros H%head_Some_elem_of.
  apply list_elem_of_filter in H. tauto.
Qed.

Lemma query_first_None db task_id :
  query_first db task_id = None ↔ task_id ∉ ids db.
Proof.
  unfold query_first, ids. rewrite head_None.
  induction (tasks db) as [|r l IH]; simpl.
  - split; [intros _; apply not_elem_of_nil | done].
  - rewrite filter_cons, not_elem_of_cons. case_decide as Hr.
    + split; [done | intros [Hne _]; congruence].
    + rewrite IH. split; [intros ?; split; [congruence | done] | tauto].
Qed.

Lemma query_first_is_Some db task_id :
  task_id ∈ ids db → ∃ r, query_first db task_id = Some r.
Proof.
  intros Hin. destruct (query_first db task_id) as [r|] eqn:E; [by exists r|].
  by apply query_first_None in E.
Qed.

(** With distinct ids, the row found is the only one with that id. *)
Lemma query_first_unique db task_id r :
  NoDup (ids db) → r ∈ tasks db → models.id r = task_id →
  query_first db task_id = Some r.
Proof.
  unfold query_first, ids. intros Hnd Hin <-.
  induction (tasks db) as [|x l IH]; [by apply elem_of_nil in Hin|].
  apply NoDup_cons in Hnd as [Hx Hnd]. rewrite filter_cons.
  apply elem_of_cons in Hin as [->|Hin].
  - by rewrite decide_True.
  - rewrite decide_False; [by apply IH|].
    intros Heq. apply Hx. rewrite Heq. by apply list_elem_of_fmap_2.
Qed.

Lemma ids_delete_row db task_id i :
  i ∈ ids (delete_row task_id db) ↔ i ∈ ids db ∧ i ≠ task_id.
Proof.
  unfold ids, delete_row; simpl. rewrite !list_elem_of_fmap. split.
  - intros (r & -> & Hr). apply list_elem_of_filter in Hr as [Hne Hr].
    split; [by exists r | done].
  - intros [(r & -> & Hr) Hne]. exists r. split; [done|].
    by apply list_elem_of_filter.
Qed.

Lemma tasks_delete_row db task_id r :
  r ∈ tasks (delete_row task_id db) ↔ r ∈ tasks db ∧ models.id r ≠ task_id.
Proof. unfold delete_row; simpl. rewrite list_elem_of_filter. tauto. Qed.

Lemma tasks_update_row db task_id row :
  tasks (update_row task_id row db) =
    tasks (delete_row task_id db) ++ [row].
Proof. done. Qed.

Lemma ids_update_row db task_id row i :
  models.id row = task_id → task_id ∈ ids db →
  i ∈ ids (update_row task_id row db) ↔ i ∈ ids db.
Proof.
  intros Hid Hin. unfold ids at 1. rewrite tasks_update_row, fmap_app.
  rewrite elem_of_app. fold (ids (delete_row task_id db)).
  rewrite ids_delete_row. simpl. rewrite list_elem_of_singleton, Hid.
  destruct (decide (i = task_id)) as [->|Hne]; tauto.
Qed.

Lemma query_first_update_row db task_id row :
  models.id row = task_id →
  query_first (update_row task_id row db) task_id = Some row.
Proof.
  intros Hid. unfold query_first. rewrite tasks_update_row, filter_app.
  assert (filter (λ r, models.id r = task_id) (tasks (delete_row task_id db))
          = []) as ->.
  { apply head_None. fold (query_first (delete_row task_id db) task_id).
    apply query_first_None. rewrite ids_delete_row. tauto. }
  by rewrite filter_cons_True.
Qed.


Lemma consistent_delete_row db task_id :
  consistent db → consistent (delete_row task_id db).
Proof.
  intros [Hnd Hlt]. split.
  - clear Hlt. unfold ids, delete_row in *; simpl.
    induction (tasks db) as [|x l IH]; [constructor|].
    rewrite fmap_cons in Hnd. apply NoDup_cons in Hnd as [Hx Hnd].
    rewrite filter_cons. case_decide; [|by apply IH].
    rewrite fmap_cons. apply NoDup_cons. split; [|by apply IH].
    intros Hin. apply Hx. apply list_elem_of_fmap in Hin as (y & ? & Hy).
    apply list_elem_of_filter in Hy as [_ Hy].
    apply list_elem_of_fmap. by exists y.
  - intros i Hi. apply ids_delete_row in Hi as [Hi _]. by apply Hlt.
Qed.

Lemma consistent_update_row db task_id row :
  models.id row = task_id → task_id ∈ ids db → consistent db →
  consistent (update_row task_id row db).
Proof.
  intros Hid Hin Hc. pose proof (consistent_delete_row db task_id Hc) as [Hnd _].
  destruct Hc as [_ Hlt]. split.
  - unfold ids. rewrite tasks_update_row, fmap_app. apply NoDup_app.
    split; [done|]. split; [|apply NoDup_singleton].
    intros i Hi. fold (ids (delete_row task_id db)) in Hi.
    apply ids_delete_row in Hi as [_ Hne]. simpl.
    rewrite list_elem_of_singleton. congruence.
  - intros i Hi. apply ids_update_row in Hi; [by apply Hlt | done..].
Qed.

(** An insert that succeeds hands out an id no stored row has. *)
Lemma insert_fresh task now db row db' :
  insert task now db = (Return row, db') →
  (models.id row ∉ ids db) ∧ tasks db' = (tasks db ++ [row]) ∧
  models.id row = tasks_id_seq db.
Proof.
  unfold insert. destruct (negb _); [done|].
  case_bool_decide as Hin; [done|].
  intros [= <- <-]. by simpl.
Qed.

(** It succeeds on a consistent database, for texts the driver takes. *)
Lemma insert_accepted task now db :
  consistent db →
  bindable (schemas.TaskCreate.name task) = true →
  from_option bindable true (schemas.TaskCreate.description task) = true →
  insert task now db =
    (Return (models.mkTask (tasks_id_seq db) (schemas.TaskCreate.name task)
               (schemas.TaskCreate.description task)
               (schemas.TaskCreate.completed task) now),
     mkDatabase
       (tasks db ++
          [models.mkTask (tasks_id_seq db) (schemas.TaskCreate.name task)
             (schemas.TaskCreate.description task)
             (schemas.TaskCreate.completed task) now])
       (tasks_id_seq db + 1)).
Proof.
  intros [Hnd Hlt] Hn Hd. unfold insert. rewrite Hn, Hd. simpl.
  rewrite bool_decide_eq_false_2; [done | intros Hin%Hlt; lia].
Qed.

(** A refused insert writes nothing. *)
Lemma insert_refused task now db :
  bindable (schemas.TaskCreate.name task) &&
    from_option bindable true (schemas.TaskCreate.description task) = false →
  insert task now db = (Raise ValueError, db).
Proof. intros H. unfold insert. by rewrite H. Qed.

Lemma insert_consistent task now db :
  consistent db → consistent (insert task now db).2.
Proof.
  intros Hc.
  destruct (bindable (schemas.TaskCreate.name task) &&
            from_option bindable true (schemas.TaskCreate.description task))
    eqn:Hb.
  - apply andb_true_iff in Hb as [Hn Hd].
    rewrite (insert_accepted task now db Hc Hn Hd). simpl.
    destruct Hc as [Hnd Hlt]. split.
    + unfold ids; simpl. rewrite fmap_app. apply NoDup_app.
      split; [done|]. split; [|apply NoDup_singleton].
      intros i Hi. simpl. rewrite list_elem_of_singleton.
      apply Hlt in Hi. lia.
    + unfold ids; simpl. rewrite fmap_app. intros i.
      rewrite elem_of_app. simpl. rewrite list_elem_of_singleton.
      intros [Hi%Hlt | ->]; lia.
  - by rewrite (insert_refused task now db Hb).
Qed.

End relational_store.

(** ** The in-memory store *)

Section in_memory_store.
Import InMemory.

Implicit Types (tasks : list dict) (t : dict) (id : Z).

Lemma py_eq_int (a b : Z) : py_eq (VInt a) (VInt b) = bool_decide (a = b).
Proof.
  unfold py_eq; simpl. destruct (Z.eqb_spec a b).
  - by rewrite bool_decide_eq_true_2.
  - by rewrite bool_decide_eq_false_2.
Qed.

Lemma keyed_my_tasks : keyed my_tasks.
Proof. repeat constructor; eexists; reflexivity. Qed.

Lemma find_post_index_from_None (n : nat) tasks id :
  keyed tasks → Some (VInt id) ∉ ids tasks →
  find_post_index_from n tasks id = Return None.
Proof.
  revert n. induction tasks as [|t tasks IH]; intros n Hk Hid; [done|].
  apply Forall_cons in Hk as [[z Hz] Hk].
  unfold ids in Hid. rewrite fmap_cons in Hid.
  apply not_elem_of_cons in Hid as [Hne Hid].
  simpl. rewrite Hz, py_eq_int.
  rewrite bool_decide_eq_false_2 by congruence. by apply IH.
Qed.

(** A found index is the first position whose id compares equal. *)
Lemma find_post_index_from_Some (n : nat) tasks id (k : nat) :
  find_post_index_from n tasks id = Return (Some k) →
  ∃ (i : nat) t v,
    k = (n + i)%nat ∧ tasks !! i = Some t ∧ t !! "id" = Some v ∧
    py_eq v (VInt id) = true ∧
    ∀ (j : nat) t', (j < i)%nat → tasks !! j = Some t' →
      ∃ v', t' !! "id" = Some v' ∧ py_eq v' (VInt id) = false.
Proof.
  revert n. induction tasks as [|t tasks IH]; intros n H; [done|].
  simpl in H. destruct (t !! "id") as [v|] eqn:Hv; [|done].
  destruct (py_eq v (VInt id)) eqn:Heq.
  - injection H as <-. exists 0%nat, t, v.
    repeat split; [lia | done.. | intros; lia].
  - apply IH in H as (i & t' & v' & -> & Hi & Hv' & Heq' & Hfirst).
    exists (S i), t', v'. repeat split; [lia | done..|].
    intros [|j] t'' Hj Hl; simpl in Hl.
    + injection Hl as <-. by exists v.
    + apply (Hfirst j); [lia | done].
Qed.

Lemma find_post_index_present tasks id :
  keyed tasks → Some (VInt id) ∈ ids tasks →
  ∃ index, find_post_index tasks id = Return (Some index).
Proof.
  unfold find_post_index. generalize 0%nat.
  induction tasks as [|t tasks IH]; intros n Hk Hid.
  - by apply elem_of_nil in Hid.
  - apply Forall_cons in Hk as [[z Hz] Hk].
    unfold ids in Hid. rewrite fmap_cons in Hid. simpl.
    rewrite Hz, py_eq_int. case_bool_decide as Hzid; [by eexists|].
    apply elem_of_cons in Hid as [Hid|Hid]; [congruence|].
    by apply IH.
Qed.

(** A created id, whatever the draw. *)
Lemma randrange_bounds (start stop : Z) (draw : N) :
  start < stop → start ≤ randrange start stop draw < stop.
Proof.
  intros Hlt. unfold randrange, randbelow.
  pose proof (Z.mod_pos_bound (Z.of_N draw) (stop - start)). lia.
Qed.

Lemma Task_dict_id (new_task : Task) (z : Z) :
  <["id" := VInt z]> (Task_dict new_task) !! "id" = Some (VInt z).
Proof. apply lookup_insert_eq. Qed.

Lemma keyed_create_task new_task draw tasks :
  keyed tasks → keyed (create_task new_task draw tasks).2.
Proof.
  intros Hk. simpl. apply Forall_app. split; [done|].
  repeat constructor. eexists. apply Task_dict_id.
Qed.

End in_memory_store.

(** ** The relational handlers *)

Section relational_handlers.
Import Relational.

Implicit Types (db : database) (r row : models.Task) (task_id : Z).
Implicit Types (u : schemas.TaskUpdate.t).

Lemma elem_of_ids db r : r ∈ tasks db → models.id r ∈ ids db.
Proof. intros Hr. by apply list_elem_of_fmap_2. Qed.

(** The loop of [setattr] followed by the flush is the patch. *)
Lemma flush_apply_update u stored :
  flush_row (apply_update u (attrs stored)) = patched u stored.
Proof.
  destruct u as [[[n|]|] [[d|]|] [[c|]|]], stored as [i n0 [d0|] c0 t0];
    reflexivity.
Qed.

Lemma flush_attrs r : flush_row (attrs r) = Some r.
Proof. by destruct r as [i n [d|] c t]. Qed.

Lemma apply_update_attrs u stored new :
  patched u stored = Some new → apply_update u (attrs stored) = attrs new.
Proof.
  destruct u as [[[n|]|] [[d|]|] [[c|]|]], stored as [i n0 [d0|] c0 t0];
    unfold patched; simpl; intros [= <-]; reflexivity.
Qed.

(** Nothing is dirty exactly when the patch is the stored row. *)
Lemma apply_update_unchanged u stored :
  apply_update u (attrs stored) = attrs stored ↔ patched u stored = Some stored.
Proof.
  split.
  - intros H. by rewrite <-flush_apply_update, H, flush_attrs.
  - apply apply_update_attrs.
Qed.

Lemma patched_id u stored new :
  patched u stored = Some new →
  models.id new = models.id stored ∧
  models.created_at new = models.created_at stored.
Proof.
  unfold patched. intros H.
  destruct (set_or_keep (schemas.TaskUpdate.name u) _); [|done].
  destruct (set_or_keep (schemas.TaskUpdate.completed u) _); [|done].
  simpl in H. by injection H as <-.
Qed.

(** The attributes after the loop, one by one. *)
Lemma apply_update_lookup u (task : dict) :
  apply_update u task !! "name" =
    match schemas.TaskUpdate.name u with
    | None => task !! "name"
    | Some n => Some (from_option VStr VNone n)
    end ∧
  apply_update u task !! "description" =
    match schemas.TaskUpdate.description u with
    | None => task !! "description"
    | Some d => Some (from_option VStr VNone d)
    end ∧
  apply_update u task !! "completed" =
    match schemas.TaskUpdate.completed u with
    | None => task !! "completed"
    | Some c => Some (from_option VBool VNone c)
    end.
Proof.
  destruct u as [[[n|]|] [[d|]|] [[c|]|]];
    unfold apply_update, setattr; simpl;
    by rewrite ?lookup_insert.
Qed.

(** An update whose texts hold no NUL sends only values the driver
    takes. *)
Lemma sends_bindable u stored :
  (∀ n, schemas.TaskUpdate.name u = Some (Some n) → bindable n = true) →
  (∀ d, schemas.TaskUpdate.description u = Some (Some d) →
        bindable d = true) →
  forallb bindable_value (sends u stored) = true.
Proof.
  intros Hn Hd. unfold sends, dirty_params. simpl.
  destruct (apply_update_lookup u (attrs stored)) as (-> & -> & ->).
  destruct u as [[[n|]|] [[d|]|] [[c|]|]]; simpl in *;
    repeat case_bool_decide; simpl;
    rewrite ?(Hn _ eq_refl), ?(Hd _ eq_refl); done.
Qed.

Lemma update_task_absent task_id u db :
  task_id ∉ ids db →
  update_task task_id u db = (Raise (does_not_exist task_id), db).
Proof.
  intros H%query_first_None. unfold update_task. by rewrite H.
Qed.

(** No field changed: nothing is written. *)
Lemma update_task_unchanged task_id u db stored :
  query_first db task_id = Some stored → patched u stored = Some stored →
  update_task task_id u db = (Return (Response HTTP_200_OK stored), db).
Proof.
  intros Hq Hp. unfold update_task, commit_update. rewrite Hq.
  rewrite bool_decide_eq_true_2 by by apply apply_update_unchanged.
  destruct (query_first_Some _ _ _ Hq) as [_ Hid]. by rewrite Hid, Hq.
Qed.

Lemma update_task_patched task_id u db stored new :
  query_first db task_id = Some stored → patched u stored = Some new →
  new ≠ stored → forallb bindable_value (sends u stored) = true →
  update_task task_id u db =
    (Return (Response HTTP_200_OK new), update_row task_id new db).
Proof.
  intros Hq Hp Hne Hb. unfold update_task, commit_update. rewrite Hq.
  rewrite bool_decide_eq_false_2.
  2:{ intros H%apply_update_unchanged. congruence. }
  fold (sends u stored). rewrite Hb, flush_apply_update, Hp. simpl.
  destruct (query_first_Some _ _ _ Hq) as [_ Hid].
  destruct (patched_id _ _ _ Hp) as [Hnew _].
  rewrite Hid. rewrite query_first_update_row; [done | congruence].
Qed.

Lemma update_task_refused task_id u db stored :
  query_first db task_id = Some stored → patched u stored = None →
  forallb bindable_value (sends u stored) = true →
  update_task task_id u db = (Raise IntegrityError, db).
Proof.
  intros Hq Hp Hb. unfold update_task, commit_update. rewrite Hq.
  rewrite bool_decide_eq_false_2.
  2:{ intros H%apply_update_unchanged. congruence. }
  fold (sends u stored). by rewrite Hb, flush_apply_update, Hp.
Qed.

Lemma update_task_unbindable task_id u db stored :
  query_first db task_id = Some stored → patched u stored ≠ Some stored →
  forallb bindable_value (sends u stored) = false →
  update_task task_id u db = (Raise ValueError, db).
Proof.
  intros Hq Hp Hb. unfold update_task, commit_update. rewrite Hq.
  rewrite bool_decide_eq_false_2.
  2:{ by intros H%apply_update_unchanged. }
  fold (sends u stored). by rewrite Hb.
Qed.

Lemma delete_task_absent task_id db :
  task_id ∉ ids db →
  delete_task task_id db = (Raise (does_not_exist task_id), db).
Proof.
  intros H%query_first_None. unfold delete_task. by rewrite H.
Qed.

Lemma delete_task_present task_id db :
  task_id ∈ ids db →
  delete_task task_id db =
    (Return (Response HTTP_204_NO_CONTENT ()), delete_row task_id db).
Proof.
  intros [r Hq]%query_first_is_Some. unfold delete_task. rewrite Hq.
  by destruct (query_first_Some _ _ _ Hq) as [_ ->].
Qed.

Lemma get_task_absent task_id db :
  task_id ∉ ids db → get_task task_id db = (Raise (not_found task_id), db).
Proof. intros H%query_first_None. unfold get_task. by rewrite H. Qed.

(** *** What a request does to the database *)

Lemma update_task_state task_id u db :
  (update_task task_id u db).2 = db ∨
  ∃ new, models.id new = task_id ∧ task_id ∈ ids db ∧
         (update_task task_id u db).2 = update_row task_id new db.
Proof.
  destruct (query_first db task_id) as [stored|] eqn:Hq.
  - destruct (query_first_Some _ _ _ Hq) as [Hin Hid].
    destruct (forallb bindable_value (sends u stored)) eqn:Hb.
    + destruct (patched u stored) as [new|] eqn:Hp.
      * destruct (decide (new = stored)) as [->|Hne].
        { left. by erewrite update_task_unchanged. }
        right. exists new. erewrite update_task_patched by done.
        split; [|split; [|done]].
        -- apply patched_id in Hp as [-> _]. done.
        -- rewrite <-Hid. by apply elem_of_ids.
      * left. by erewrite update_task_refused.
    + left. destruct (decide (patched u stored = Some stored)) as [Hp|Hp].
      * by erewrite update_task_unchanged.
      * by erewrite update_task_unbindable.
  - left. apply query_first_None in Hq. by rewrite update_task_absent.
Qed.

Lemma delete_task_state task_id db :
  (delete_task task_id db).2 = db ∨
  (delete_task task_id db).2 = delete_row task_id db.
Proof.
  destruct (decide (task_id ∈ ids db)).
  - right. by rewrite delete_task_present.
  - left. by rewrite delete_task_absent.
Qed.

Lemma create_task_state task now db :
  consistent db →
  bindable (schemas.TaskCreate.name task) = true →
  from_option bindable true (schemas.TaskCreate.description task) = true →
  ∃ row, create_task task now db =
           (Return (Response HTTP_201_CREATED row),
            mkDatabase (tasks db ++ [row]) (tasks_id_seq db + 1)) ∧
         row = models.mkTask (tasks_id_seq db)
                 (schemas.TaskCreate.name task)
                 (schemas.TaskCreate.description task)
                 (schemas.TaskCreate.completed task) now ∧
         models.id row ∉ ids db.
Proof.
  intros Hc Hn Hd. unfold create_task.
  rewrite (insert_accepted task now db Hc Hn Hd).
  eexists. split; [done|]. split; [done|]. simpl.
  destruct Hc as [_ Hlt]. intros Hin%Hlt. lia.
Qed.

(** A create the driver refuses is answered with the error and stores
    nothing. *)
Lemma create_task_refused task now db :
  bindable (schemas.TaskCreate.name task) &&
    from_option bindable true (schemas.TaskCreate.description task) = false →
  create_task task now db = (Raise ValueError, db).
Proof. intros H. unfold create_task. by rewrite insert_refused. Qed.

(** A create leaves the database as it was or appends one row with the
    id of the sequence. *)
Lemma create_task_cases task now db :
  consistent db →
  (create_task task now db).2 = db ∨
  ∃ row, models.id row = tasks_id_seq db ∧
         (create_task task now db).2 =
           mkDatabase (tasks db ++ [row]) (tasks_id_seq db + 1).
Proof.
  intros Hc.
  destruct (bindable (schemas.TaskCreate.name task) &&
            from_option bindable true (schemas.TaskCreate.description task))
    eqn:Hb.
  - apply andb_true_iff in Hb as [Hn Hd].
    destruct (create_task_state task now db Hc Hn Hd) as (row & -> & -> & _).
    right. eexists. split; [|reflexivity]. reflexivity.
  - left. by rewrite create_task_refused.
Qed.

Lemma create_task_consistent task now db :
  consistent db → consistent (create_task task now db).2.
Proof.
  intros Hc. pose proof (insert_consistent task now db Hc) as Hi.
  unfold create_task. by destruct (insert task now db) as [[row|e] db'].
Qed.

Lemma get_tasks_state (limit skip : Z) (search : string) db :
  (get_tasks limit skip search db).2 = db.
Proof.
  unfold get_tasks. destruct (negb _); [done|]. by case_bool_decide.
Qed.

Lemma serve_consistent db req : consistent db → consistent (serve db req).
Proof.
  intros Hc. destruct req as [limit skip search|body now|i|i|i body]; simpl.
  - by rewrite get_tasks_state.
  - unfold post_tasks. destruct (schemas.TaskCreate.validate body); [|done].
    by apply create_task_consistent.
  - unfold get_task. by destruct (query_first db i).
  - destruct (delete_task_state i db) as [-> | ->];
      [done | by apply consistent_delete_row].
  - unfold put_tasks. destruct (schemas.TaskUpdate.validate body); [|done].
    destruct (update_task_state i a db) as [-> | (new & Hid & Hin & ->)];
      [done | by apply consistent_update_row].
Qed.

Lemma serve_all_consistent db reqs :
  consistent db → consistent (serve_all db reqs).
Proof.
  revert db. induction reqs as [|req reqs IH]; intros db Hc; [done|].
  simpl. apply IH. by apply serve_consistent.
Qed.

(** An id the sequence has passed and no row holds is never held again. *)
Lemma serve_retired db req task_id :
  consistent db → task_id < tasks_id_seq db → task_id ∉ ids db →
  task_id < tasks_id_seq (serve db req) ∧ task_id ∉ ids (serve db req).
Proof.
  intros Hc Hlt Hid.
  destruct req as [limit skip search|body now|i|i|i body]; simpl.
  - by rewrite get_tasks_state.
  - unfold post_tasks. destruct (schemas.TaskCreate.validate body); [|done].
    destruct (create_task_cases a now db Hc) as [-> | (row & Hrow & ->)];
      [done|].
    simpl. split; [lia|]. unfold ids; simpl. rewrite fmap_app.
    rewrite elem_of_app. intros [?|Hin]; [done|].
    simpl in Hin. apply list_elem_of_singleton in Hin. lia.
  - unfold get_task. by destruct (query_first db i).
  - destruct (delete_task_state i db) as [-> | ->]; [done|].
    split; [done|]. rewrite ids_delete_row. tauto.
  - unfold put_tasks. destruct (schemas.TaskUpdate.validate body); [|done].
    destruct (update_task_state i a db) as [-> | (new & Hnew & Hin & ->)];
      [done|].
    split; [done|]. by rewrite ids_update_row.
Qed.

Lemma serve_all_retired db reqs task_id :
  consistent db → task_id < tasks_id_seq db → task_id ∉ ids db →
  task_id ∉ ids (serve_all db reqs).
Proof.
  revert db. induction reqs as [|req reqs IH]; intros db Hc Hlt Hid; [done|].
  simpl. destruct (serve_retired db req task_id Hc Hlt Hid) as [Hlt' Hid'].
  apply IH; [by apply serve_consistent | done..].
Qed.

End relational_handlers.

(** ** The in-memory handlers *)

Section in_memory_handlers.
Import InMemory.

Implicit Types (tasks : list dict) (t : dict) (id : Z).

Lemma find_post_index_absent tasks id :
  keyed tasks → Some (VInt id) ∉ ids tasks →
  find_post_index tasks id = Return None.
Proof. apply find_post_index_from_None. Qed.

Lemma find_post_index_keyed tasks id (index : nat) :
  keyed tasks → find_post_index tasks id = Return (Some index) →
  ∃ t, tasks !! index = Some t ∧ t !! "id" = Some (VInt id).
Proof.
  intros Hk H. apply find_post_index_from_Some in H
    as (i & t & v & -> & Ht & Hv & Heq & _).
  exists t. split; [done|].
  destruct (Forall_lookup_1 _ _ _ _ Hk Ht) as [z Hz].
  rewrite Hz in Hv. injection Hv as <-.
  rewrite py_eq_int in Heq. apply bool_decide_eq_true in Heq. by subst.
Qed.

Lemma in_memory_delete_absent tasks id :
  keyed tasks → Some (VInt id) ∉ ids tasks →
  delete_task id tasks = (Raise (not_found id), tasks).
Proof.
  intros Hk Hid. unfold delete_task. by rewrite find_post_index_absent.
Qed.

Lemma in_memory_update_absent tasks id update_post :
  keyed tasks → Some (VInt id) ∉ ids tasks →
  update_task id update_post tasks = (Raise (not_found id), tasks).
Proof.
  intros Hk Hid. unfold update_task. by rewrite find_post_index_absent.
Qed.

Lemma in_memory_delete_present tasks id :
  keyed tasks → Some (VInt id) ∈ ids tasks →
  ∃ (index : nat) t,
    tasks !! index = Some t ∧ t !! "id" = Some (VInt id) ∧
    delete_task id tasks =
      (Return (Response HTTP_204_NO_CONTENT empty), delete index tasks).
Proof.
  intros Hk Hid.
  destruct (find_post_index_present tasks id Hk Hid) as [index Hf].
  destruct (find_post_index_keyed tasks id index Hk Hf) as (t & Ht & Hv).
  exists index, t. repeat split; [done..|].
  unfold delete_task. by rewrite Hf.
Qed.


Lemma keyed_delete_task tasks id :
  keyed tasks → keyed (delete_task id tasks).2.
Proof.
  intros Hk. unfold delete_task.
  destruct (find_post_index tasks id) as [[index|]|e]; simpl; [|done..].
  by apply Forall_delete.
Qed.

Lemma keyed_update_task tasks id update_post :
  keyed tasks → keyed (update_task id update_post tasks).2.
Proof.
  intros Hk. unfold update_task.
  destruct (find_post_index tasks id) as [[index|]|e]; simpl; [|done..].
  apply Forall_insert; [done|]. eexists. apply Task_dict_id.
Qed.

(** With distinct ids, the deleted id is gone from the list. *)
Lemma ids_delete_NoDup tasks (index : nat) t id :
  NoDup (ids tasks) → tasks !! index = Some t → t !! "id" = Some (VInt id) →
  Some (VInt id) ∉ ids (delete index tasks).
Proof.
  intros Hnd Ht Hv. unfold ids in *. rewrite list_fmap_delete.
  assert ((((λ t : dict, t !! "id") <$> tasks) !! index) = Some (Some (VInt id)))
    as Hl by (by rewrite list_lookup_fmap, Ht; simpl; rewrite Hv).
  apply delete_Permutation in Hl. rewrite Hl in Hnd.
  by apply NoDup_cons in Hnd as [? _].
Qed.

End in_memory_handlers.

(** ** Validation *)


Lemma required_cases {A} (key : string) (f : value → option A) (body : dict) :
  (∃ a, required key f body = Return a) ∨
  required key f body = Raise (RequestValidationError key).
Proof.
  unfold required. destruct (body !! key) as [v|]; [|by right].
  destruct (f v) as [a|]; [left; by exists a | by right].
Qed.














(** ** The list query *)

Lemma get_tasks_rows (limit skip : Z) (search : string)
  (db : Relational.database) :
  bindable search = true → 0 ≤ limit < 2 ^ 63 → 0 ≤ skip < 2 ^ 63 →
  Relational.get_tasks limit skip search db =
    (Return
       (Response HTTP_200_OK
          (take (Z.to_nat limit)
             (drop (Z.to_nat skip)
                (filter
                   (λ r, like ("%" +:+ search +:+ "%")
                           (Relational.models.name r))
                   (Relational.tasks db))))),
     db).
Proof.
  intros Hb Hl Hs. unfold Relational.get_tasks. rewrite Hb. simpl.
  rewrite bool_decide_eq_false_2 by lia. done.
Qed.

Lemma get_tasks_negative (limit skip : Z) (search : string)
  (db : Relational.database) :
  bindable search = true →
  limit < 0 ∨ skip < 0 ∨ 2 ^ 63 ≤ limit ∨ 2 ^ 63 ≤ skip →
  Relational.get_tasks limit skip search db = (Raise Relational.DataError, db).
Proof.
  intros Hb H. unfold Relational.get_tasks. rewrite Hb. simpl.
  by rewrite bool_decide_eq_true_2.
Qed.

Lemma get_tasks_unbindable (limit skip : Z) (search : string)
  (db : Relational.database) :
  bindable search = false →
  Relational.get_tasks limit skip search db = (Raise ValueError, db).
Proof. intros Hb. unfold Relational.get_tasks. by rewrite Hb. Qed.

(** Whatever the arguments, a 200 answer is the [LIKE] filter, cut by
    [skip] and [limit]. *)
Lemma get_tasks_Return (limit skip : Z) (search : string)
  (db db' : Relational.database) rows :
  Relational.get_tasks limit skip search db =
    (Return (Response HTTP_200_OK rows), db') →
  db' = db ∧
  rows =
    take (Z.to_nat limit)
      (drop (Z.to_nat skip)
         (filter
            (λ r, like ("%" +:+ search +:+ "%") (Relational.models.name r))
            (Relational.tasks db))).
Proof.
  unfold Relational.get_tasks. destruct (negb _); [done|].
  case_bool_decide; [done|]. by intros [= <- <-].
Qed.

Lemma filter_like_literal (search : string) (rows : list Relational.models.Task) :
  literal search = true →
  filter (λ r, like ("%" +:+ search +:+ "%") (Relational.models.name r)) rows =
  filter (λ r, containsb (Relational.models.name r) search) rows.
Proof.
  intros Hlit. apply list_filter_iff. intros r.
  by rewrite (like_contains_literal search _ Hlit).
Qed.

Lemma filter_containsb_empty (rows : list Relational.models.Task) :
  filter (λ r, containsb (Relational.models.name r) "") rows = rows.
Proof.
  induction rows as [|r rows IH]; [done|].
  rewrite filter_cons_True; [by rewrite IH|].
  by rewrite containsb_empty.
Qed.

Lemma filter_containsb_none (search : string)
  (rows : list Relational.models.Task) :
  (∀ r, r ∈ rows → ¬ contains (Relational.models.name r) search) →
  filter (λ r, containsb (Relational.models.name r) search) rows = [].
Proof.
  intros Hnone. induction rows as [|r rows IH]; [done|].
  rewrite filter_cons_False.
  - apply IH. intros r' Hr'. apply Hnone. by apply elem_of_cons; right.
  - intros Hc%Is_true_true%containsb_spec. revert Hc. apply Hnone.
    by apply elem_of_cons; left.
Qed.

Lemma elem_of_spec_list (limit skip : nat) (search : string)
  (rows : list Relational.models.Task) (r : Relational.models.Task) :
  r ∈ Relational.spec_list limit skip search rows →
  r ∈ rows ∧ contains (Relational.models.name r) search.
Proof.
  unfold Relational.spec_list.
  intros Hr%subseteq_take%subseteq_drop%list_elem_of_filter.
  destruct Hr as [Hc Hr]. split; [done|].
  by apply containsb_spec, Is_true_true.
Qed.

Lemma consistent_one_task : Relational.consistent Relational.one_task.
Proof. apply serve_consistent, consistent_create_all. Qed.

(** ** The session *)

Section session_properties.
Import Session.

Lemma perform_rows (s : session) (c : Database.call) :
  Relational.tasks (committed (perform s c)) = Relational.tasks (committed s).
Proof. by destruct c. Qed.

Lemma perform_all_rows (calls : list Database.call) (s : session) :
  Relational.tasks (committed (foldl perform s calls)) =
    Relational.tasks (committed s).
Proof.
  revert s. induction calls as [|c calls IH]; intros s; [done|].
  simpl. by rewrite IH, perform_rows.
Qed.

Lemma fastapiEx_get_db_ends_transaction (r : Database.resume) (s : session) :
  in_flight (foldl perform s (Database.fastapiEx.get_db r).1) = None.
Proof. by destruct r. Qed.

Lemma Postgresql_get_db_ends_transaction (r : Database.resume) (s : session) :
  in_flight (foldl perform s (Database.Postgresql.get_db r).1) = None.
Proof. by destruct r as [|[]]. Qed.

(** The routes on a session as [SessionLocal()] gives it. *)
Lemma create_task_SessionLocal task now db :
  create_task task now (SessionLocal db) =
    match Relational.insert task now db with
    | (Raise e, db') =>
        (Raise e,
         mkSession
           (Relational.mkDatabase (Relational.tasks db)
              (Relational.tasks_id_seq db')) None)
    | (Return new_task, db') =>
        match Relational.query_first db' (Relational.models.id new_task) with
        | Some row =>
            (Return (Response HTTP_201_CREATED row), mkSession db' (Some db'))
        | None =>
            (Raise (OtherException "InvalidRequestError"),
             mkSession db' (Some db'))
        end
    end.
Proof.
  unfold create_task, commit, execute.
  change (view (SessionLocal db)) with db.
  destruct (Relational.insert task now db) as [[row|e] db']; simpl; [|done].
  unfold refresh, view. simpl.
  by destruct (Relational.query_first db' (Relational.models.id row)).
Qed.

Lemma update_task_SessionLocal task_id u db :
  update_task task_id u (SessionLocal db) =
    match Relational.query_first db task_id with
    | None => (Raise (Relational.does_not_exist task_id), mkSession db (Some db))
    | Some task =>
        match
          Relational.commit_update (Relational.models.id task)
            (Relational.attrs task)
            (Relational.apply_update u (Relational.attrs task)) db
        with
        | Raise e => (Raise e, mkSession db None)
        | Return db' =>
            match Relational.query_first db' (Relational.models.id task) with
            | Some row =>
                (Return (Response HTTP_200_OK row), mkSession db' (Some db'))
            | None =>
                (Raise (OtherException "InvalidRequestError"),
                 mkSession db' (Some db'))
            end
        end
    end.
Proof.
  unfold update_task, execute.
  change (view (SessionLocal db)) with db. simpl.
  destruct (Relational.query_first db task_id) as [task|]; [|done].
  unfold commit, execute, flush_update, view. simpl.
  destruct (Relational.commit_update _ _ _ db) as [db'|e]; simpl.
  - unfold refresh.
    by destruct (Relational.query_first db' (Relational.models.id task)).
  - by destruct db.
Qed.

Lemma delete_task_SessionLocal task_id db :
  delete_task task_id (SessionLocal db) =
    match Relational.query_first db task_id with
    | None => (Raise (Relational.does_not_exist task_id), mkSession db (Some db))
    | Some task =>
        (Return (Response HTTP_204_NO_CONTENT ()),
         mkSession (Relational.delete_row (Relational.models.id task) db) None)
    end.
Proof.
  unfold delete_task, execute.
  change (view (SessionLocal db)) with db. simpl.
  by destruct (Relational.query_first db task_id).
Qed.

Lemma get_task_SessionLocal task_id db :
  get_task task_id (SessionLocal db) =
    ((Relational.get_task task_id db).1, mkSession db (Some db)).
Proof.
  unfold get_task, Relational.get_task, execute.
  change (view (SessionLocal db)) with db. simpl.
  by destruct (Relational.query_first db task_id).
Qed.

Lemma get_tasks_SessionLocal limit skip search db :
  get_tasks limit skip search (SessionLocal db) =
    ((Relational.get_tasks limit skip search db).1, mkSession db (Some db)).
Proof.
  unfold get_tasks, execute.
  change (view (SessionLocal db)) with db.
  by rewrite get_tasks_state.
Qed.

(** A route that raises has committed nothing, unless what it raises is
    the failure of [refresh] after its commit. *)
Lemma route_error_rows (req : Relational.request) (db : Relational.database)
  (e : exn) :
  (route req (SessionLocal db)).1 = Raise e →
  e ≠ OtherException "InvalidRequestError" →
  Relational.tasks (committed (route req (SessionLocal db)).2) =
    Relational.tasks db.
Proof.
  destruct req as [limit skip search|body now|task_id|task_id|task_id body];
    unfold route; cbv zeta; cbn [fst snd].
  - by rewrite get_tasks_SessionLocal.
  - unfold post_tasks.
    destruct (Relational.schemas.TaskCreate.validate body) as [task|e'];
      [|done].
    rewrite create_task_SessionLocal.
    destruct (Relational.insert task now db) as [[row|e'] db']; [|done].
    destruct (Relational.query_first db' _); [done|].
    simpl. congruence.
  - by rewrite get_task_SessionLocal.
  - rewrite delete_task_SessionLocal.
    by destruct (Relational.query_first db task_id).
  - unfold put_tasks.
    destruct (Relational.schemas.TaskUpdate.validate body) as [u|e']; [|done].
    rewrite update_task_SessionLocal.
    destruct (Relational.query_first db task_id) as [task|]; [|done].
    destruct (Relational.commit_update _ _ _ db) as [db'|e']; [|done].
    destruct (Relational.query_first db' _); [done|].
    simpl. congruence.
Qed.

(** The database a request leaves behind a [get_db] is the one the route
    function on the database gives. *)
Lemma route_serve (req : Relational.request) (db : Relational.database) :
  committed (close (route req (SessionLocal db)).2) = Relational.serve db req.
Proof.
  destruct req as [limit skip search|body now|task_id|task_id|task_id body];
    unfold route, Relational.serve; cbv zeta; cbn [fst snd].
  - rewrite get_tasks_SessionLocal, get_tasks_state. by destruct db.
  - unfold post_tasks, Relational.post_tasks.
    destruct (Relational.schemas.TaskCreate.validate body) as [task|e];
      [|by destruct db].
    rewrite create_task_SessionLocal. unfold Relational.create_task.
    destruct (Relational.insert task now db) as [[row|e] db'] eqn:Hi.
    + destruct (Relational.query_first db' _); by destruct db'.
    + unfold Relational.insert in Hi.
      destruct (negb _); [injection Hi as _ <-; by destruct db|].
      case_bool_decide; [by injection Hi as _ <- | done].
  - rewrite get_task_SessionLocal. unfold Relational.get_task.
    destruct (Relational.query_first db task_id); by destruct db.
  - rewrite delete_task_SessionLocal. unfold Relational.delete_task.
    destruct (Relational.query_first db task_id); by destruct db.
  - unfold put_tasks, Relational.put_tasks.
    destruct (Relational.schemas.TaskUpdate.validate body) as [u|e];
      [|by destruct db].
    rewrite update_task_SessionLocal. unfold Relational.update_task.
    destruct (Relational.query_first db task_id) as [task|];
      [|by destruct db].
    destruct (Relational.commit_update _ _ _ db) as [db'|e];
      [|by destruct db].
    destruct (Relational.query_first db' _); by destruct db'.
Qed.

End session_properties.

(** * The claims *)




(** C2 (what the code does instead).  In-memory create does not look at
    the ids already in the list: two creates that draw the same number
    store two records with the same id.  Drawing 2 twice on the seeded
    list leaves the ids 1, 2, 5, 5. *)
Theorem create_task_repeats_id :
  (∀ (first second : InMemory.Task) (draw : N) (tasks : list dict),
     ∃ id,
       InMemory.ids
         (InMemory.create_task second draw
            (InMemory.create_task first draw tasks).2).2
       = InMemory.ids tasks ++ [Some (VInt id); Some (VInt id)]) ∧
  InMemory.ids
    (InMemory.create_task (InMemory.mkTask "b" "b" false) 2
       (InMemory.create_task (InMemory.mkTask "a" "a" false) 2
          InMemory.my_tasks).2).2
  = [Some (VInt 1); Some (VInt 2); Some (VInt 5); Some (VInt 5)].
Proof.
  split; [|reflexivity].
  intros first second draw tasks. exists (randrange 3 10000 draw).
  unfold InMemory.ids; simpl. rewrite !fmap_app, <-app_assoc. simpl.
  by rewrite !Task_dict_id.
Qed.

(** C3 (as stated, refuted).  The search term ["_"] lists the task named
    "Buy milk", whose name has no underscore in it. *)
Lemma get_tasks_underscore_lists_any_name :
  Relational.tasks Relational.one_task =
    [Relational.models.mkTask 1 "Buy milk" None false 0] ∧
  Relational.get_tasks 10 0 "_" Relational.one_task =
    (Return (Response HTTP_200_OK
               [Relational.models.mkTask 1 "Buy milk" None false 0]),
     Relational.one_task) ∧
  ¬ contains "Buy milk" "_" ∧
  Relational.spec_list 10 0 "_" (Relational.tasks Relational.one_task) = [].
Proof.
  repeat split. by apply containsb_false.
Qed.

(** C3 (amended).  Relational list, for [limit] and [skip] from 0 up to
    the engine's 64-bit bound and a search term without [%], [_],
    backslash and NUL: the response is 200 with the tasks whose name
    contains the term, in storage order, the first [skip] of them dropped
    and at most [limit] of the rest kept; every task listed is stored and
    its name contains the term; the empty term lists all tasks within
    [limit] and [skip]; a term no name contains lists nothing.  The
    in-memory list takes no argument and answers 200 with the whole
    list. *)
Theorem get_tasks_contract :
  (∀ limit skip search db,
     0 ≤ limit < 2 ^ 63 → 0 ≤ skip < 2 ^ 63 →
     literal search = true → bindable search = true →
     Relational.get_tasks limit skip search db =
       (Return (Response HTTP_200_OK
                  (Relational.spec_list (Z.to_nat limit) (Z.to_nat skip)
                     search (Relational.tasks db))),
        db)) ∧
  (∀ (limit skip : nat) search rows r,
     r ∈ Relational.spec_list limit skip search rows →
     r ∈ rows ∧ contains (Relational.models.name r) search) ∧
  (∀ limit skip db,
     0 ≤ limit < 2 ^ 63 → 0 ≤ skip < 2 ^ 63 →
     Relational.get_tasks limit skip "" db =
       (Return (Response HTTP_200_OK
                  (take (Z.to_nat limit)
                     (drop (Z.to_nat skip) (Relational.tasks db)))),
        db)) ∧
  (∀ limit skip search db,
     0 ≤ limit < 2 ^ 63 → 0 ≤ skip < 2 ^ 63 →
     literal search = true → bindable search = true →
     (∀ r, r ∈ Relational.tasks db →
           ¬ contains (Relational.models.name r) search) →
     Relational.get_tasks limit skip search db =
       (Return (Response HTTP_200_OK []), db)) ∧
  (∀ tasks,
     InMemory.get_tasks tasks =
       (Return (Response HTTP_200_OK (InMemory.data_list tasks)), tasks)).
Proof.
  repeat apply conj.
  - intros limit skip search db Hl Hs Hlit Hb.
    rewrite get_tasks_rows by done. unfold Relational.spec_list.
    by rewrite filter_like_literal.
  - apply elem_of_spec_list.
  - intros limit skip db Hl Hs. rewrite get_tasks_rows by done.
    by rewrite filter_like_literal, filter_containsb_empty.
  - intros limit skip search db Hl Hs Hlit Hb Hnone.
    rewrite get_tasks_rows by done.
    rewrite filter_like_literal, filter_containsb_none by done.
    by rewrite drop_nil, take_nil.
  - done.
Qed.

Lemma get_tasks_contract_witness :
  Relational.get_tasks 10 0 "milk" Relational.one_task =
    (Return (Response HTTP_200_OK
               (Relational.spec_list 10 0 "milk"
                  (Relational.tasks Relational.one_task))),
     Relational.one_task) ∧
  (Relational.models.mkTask 1 "Buy milk" None false 0
     ∈ Relational.tasks Relational.one_task ∧
   contains "Buy milk" "milk") ∧
  Relational.get_tasks 10 0 "" Relational.one_task =
    (Return (Response HTTP_200_OK
               (take 10 (drop 0 (Relational.tasks Relational.one_task)))),
     Relational.one_task) ∧
  Relational.get_tasks 10 0 "eggs" Relational.one_task =
    (Return (Response HTTP_200_OK []), Relational.one_task).
Proof.
  destruct get_tasks_contract as (Hlist & Hsound & Hall & Hnone & _).
  repeat apply conj.
  - apply (Hlist 10 0 "milk"); [lia | lia | reflexivity | reflexivity].
  - apply (Hsound 10%nat 0%nat "milk"). compute_done.
  - apply (Hsound 10%nat 0%nat "milk"
             (Relational.tasks Relational.one_task)
             (Relational.models.mkTask 1 "Buy milk" None false 0)).
    compute_done.
  - apply (Hall 10 0); lia.
  - apply (Hnone 10 0 "eggs"); [lia | lia | reflexivity | reflexivity |].
    intros r Hr. apply list_elem_of_singleton in Hr as ->.
    by apply containsb_false.
Defined.

(** C4.  In the relational variants a request whose route raises a
    database error, a [SQLAlchemyError] of the engine or the driver's
    refusal of a text, is over, under either [get_db], with no
    transaction in flight and with the rows that were committed before
    it, and the client is sent status 500.  Whatever the request, no
    transaction is left in flight, and the database left is the one the
    route function gives.  [GET /tasks] with a negative [limit] raises
    with its transaction in flight, which the [close] of [get_db] rolls
    back; [PUT /tasks/1] with [{"name": null}] raises from the flush,
    which has rolled the transaction back when it raises. *)
Theorem backend_error_is_rolled_back :
  (∀ get_db req db e,
     get_db = Database.Postgresql.get_db ∨
     get_db = Database.fastapiEx.get_db →
     (Session.route req (Session.SessionLocal db)).1 = Raise e →
     (∃ msg, e = SQLAlchemyError msg) ∨ e = ValueError →
     Session.in_flight (Session.request_under get_db req db).2 = None ∧
     Relational.tasks
       (Session.committed (Session.request_under get_db req db).2) =
       Relational.tasks db ∧
     (Session.request_under get_db req db).1 = 500) ∧
  (∀ get_db req db,
     get_db = Database.Postgresql.get_db ∨
     get_db = Database.fastapiEx.get_db →
     Session.in_flight (Session.request_under get_db req db).2 = None ∧
     Session.committed (Session.request_under get_db req db).2 =
       Relational.serve db req) ∧
  Session.route (Relational.GET_tasks (-1) 0 "")
    (Session.SessionLocal Relational.one_task) =
    (Raise Relational.DataError,
     Session.mkSession Relational.one_task (Some Relational.one_task)) ∧
  Session.route (Relational.PUT_task 1 {[ "name" := VNone ]})
    (Session.SessionLocal Relational.one_task) =
    (Raise Relational.IntegrityError,
     Session.mkSession Relational.one_task None).
Proof.
  split; [|split; [|split; reflexivity]].
  - intros get_db req db e Hg Hraise He.
    assert (e ≠ OtherException "InvalidRequestError") as Hne.
    { destruct He as [[msg ->] | ->]; discriminate. }
    unfold Session.request_under. cbv zeta. cbn [fst snd].
    rewrite perform_all_rows, (route_error_rows _ _ _ Hraise Hne), Hraise.
    unfold Database.with_db.
    destruct Hg as [-> | ->].
    + rewrite Postgresql_get_db_ends_transaction.
      by destruct He as [[msg ->] | ->].
    + rewrite fastapiEx_get_db_ends_transaction.
      by destruct He as [[msg ->] | ->].
  - intros get_db req db Hg.
    unfold Session.request_under. cbv zeta. cbn [fst snd].
    rewrite <-route_serve.
    destruct (Session.route req (Session.SessionLocal db)) as [handled s].
    destruct Hg as [-> | ->]; cbn [fst snd].
    + by destruct handled as [code|[]].
    + by destruct handled.
Qed.

Lemma backend_error_is_rolled_back_witness :
  (Session.in_flight
     (Session.request_under Database.fastapiEx.get_db
        (Relational.PUT_task 1 {[ "name" := VNone ]}) Relational.one_task).2
     = None ∧
   Relational.tasks
     (Session.committed
        (Session.request_under Database.fastapiEx.get_db
           (Relational.PUT_task 1 {[ "name" := VNone ]})
           Relational.one_task).2) =
     Relational.tasks Relational.one_task ∧
   (Session.request_under Database.fastapiEx.get_db
      (Relational.PUT_task 1 {[ "name" := VNone ]}) Relational.one_task).1
     = 500) ∧
  (Session.in_flight
     (Session.request_under Database.Postgresql.get_db
        (Relational.GET_tasks (-1) 0 "") Relational.one_task).2
     = None ∧
   Relational.tasks
     (Session.committed
        (Session.request_under Database.Postgresql.get_db
           (Relational.GET_tasks (-1) 0 "") Relational.one_task).2) =
     Relational.tasks Relational.one_task ∧
   (Session.request_under Database.Postgresql.get_db
      (Relational.GET_tasks (-1) 0 "") Relational.one_task).1
     = 500).
Proof.
  destruct backend_error_is_rolled_back as (Herror & _).
  split.
  - apply (Herror _ _ _ Relational.IntegrityError);
      [by right | reflexivity | left; by eexists].
  - apply (Herror _ _ _ Relational.DataError);
      [by left | reflexivity | left; by eexists].
Defined.

(** C5 (what the code does instead).  In-memory delete takes out one
    record, the first with the id.  On the list that two creates drawing
    the same number leave (ids 1, 2, 5, 5), [DELETE /tasks/5] answers 204
    and a record with id 5 is still stored; [DELETE /tasks/5] again
    answers 204 again, and only then is no record with the id left. *)
Theorem delete_task_leaves_repeated_id :
  InMemory.ids
    (InMemory.create_task (InMemory.mkTask "b" "b" false) 2
       (InMemory.create_task (InMemory.mkTask "a" "a" false) 2
          InMemory.my_tasks).2).2
  = [Some (VInt 1); Some (VInt 2); Some (VInt 5); Some (VInt 5)] ∧
  ∃ once twice,
    InMemory.delete_task 5
      (InMemory.create_task (InMemory.mkTask "b" "b" false) 2
         (InMemory.create_task (InMemory.mkTask "a" "a" false) 2
            InMemory.my_tasks).2).2
    = (Return (Response HTTP_204_NO_CONTENT InMemory.empty), once) ∧
    InMemory.ids once = [Some (VInt 1); Some (VInt 2); Some (VInt 5)] ∧
    InMemory.delete_task 5 once =
      (Return (Response HTTP_204_NO_CONTENT InMemory.empty), twice) ∧
    InMemory.ids twice = [Some (VInt 1); Some (VInt 2)].
Proof.
  split; [reflexivity|]. eexists _, _.
  split; [reflexivity|]. split; [reflexivity|].
  split; reflexivity.
Qed.

(** Delete, where ids do not repeat.  Relational: an id that is not
    stored raises 404 and leaves the table as it is; a stored id answers
    204 with an empty body, the rows left are exactly the rows with
    another id, retrieve on the id then raises 404, and on a consistent
    database it still does after any further requests.  In-memory (which
    has no retrieve route): an id that is not stored raises 404; a stored
    id answers 204 with an empty body and the list loses the record at the
    index found, and with distinct ids no record with the id is left. *)
Theorem delete_task_contract :
  (∀ task_id db,
     task_id ∉ Relational.ids db →
     Relational.delete_task task_id db =
       (Raise (HTTPException HTTP_404_NOT_FOUND
                 ("Task with id: " +:+ str task_id +:+ " does not exist")),
        db)) ∧
  (∀ task_id db,
     task_id ∈ Relational.ids db →
     ∃ db',
       Relational.delete_task task_id db =
         (Return (Response HTTP_204_NO_CONTENT ()), db') ∧
       (∀ r, r ∈ Relational.tasks db' ↔
             r ∈ Relational.tasks db ∧ Relational.models.id r ≠ task_id) ∧
       status_of (Relational.get_task task_id db').1 = HTTP_404_NOT_FOUND ∧
       (Relational.consistent db →
        ∀ reqs,
          status_of
            (Relational.get_task task_id (Relational.serve_all db' reqs)).1
          = HTTP_404_NOT_FOUND)) ∧
  (∀ id tasks,
     InMemory.keyed tasks → Some (VInt id) ∉ InMemory.ids tasks →
     InMemory.delete_task id tasks =
       (Raise (HTTPException HTTP_404_NOT_FOUND
                 ("Task not found with this id " +:+ str id)),
        tasks)) ∧
  (∀ id tasks,
     InMemory.keyed tasks → Some (VInt id) ∈ InMemory.ids tasks →
     ∃ (index : nat) (t : dict),
       tasks !! index = Some t ∧ t !! "id" = Some (VInt id) ∧
       InMemory.delete_task id tasks =
         (Return (Response HTTP_204_NO_CONTENT InMemory.empty),
          delete index tasks) ∧
       (NoDup (InMemory.ids tasks) →
        Some (VInt id) ∉ InMemory.ids (delete index tasks))).
Proof.
  split; [|split; [|split]].
  - intros task_id db Habs. by apply delete_task_absent.
  - intros task_id db Hin. exists (Relational.delete_row task_id db).
    assert (task_id ∉ Relational.ids (Relational.delete_row task_id db))
      as Hgone by (rewrite ids_delete_row; tauto).
    split; [by apply delete_task_present|].
    split; [intros r; apply tasks_delete_row|].
    split; [by rewrite get_task_absent|].
    intros Hc reqs. rewrite get_task_absent; [done|].
    apply serve_all_retired; [by apply consistent_delete_row | | done].
    simpl. by apply Hc.
  - intros id tasks Hk Habs. by apply in_memory_delete_absent.
  - intros id tasks Hk Hin.
    destruct (in_memory_delete_present tasks id Hk Hin)
      as (index & t & Ht & Hv & Hd).
    exists index, t. repeat split; [done..|].
    intros Hnd. by eapply ids_delete_NoDup.
Qed.

Lemma delete_task_contract_witness :
  Relational.delete_task 999 Relational.one_task =
    (Raise (HTTPException HTTP_404_NOT_FOUND
              ("Task with id: " +:+ str 999 +:+ " does not exist")),
     Relational.one_task) ∧
  (∃ db',
     Relational.delete_task 1 Relational.one_task =
       (Return (Response HTTP_204_NO_CONTENT ()), db') ∧
     status_of (Relational.get_task 1 db').1 = HTTP_404_NOT_FOUND ∧
     status_of
       (Relational.get_task 1
          (Relational.serve_all db'
             [Relational.POST_tasks buy_milk 5; Relational.GET_task 1])).1
     = HTTP_404_NOT_FOUND) ∧
  InMemory.delete_task 999 InMemory.my_tasks =
    (Raise (HTTPException HTTP_404_NOT_FOUND
              ("Task not found with this id " +:+ str 999)),
     InMemory.my_tasks) ∧
  (∃ (index : nat) (t : dict),
     InMemory.my_tasks !! index = Some t ∧ t !! "id" = Some (VInt 2) ∧
     InMemory.delete_task 2 InMemory.my_tasks =
       (Return (Response HTTP_204_NO_CONTENT InMemory.empty),
        delete index InMemory.my_tasks) ∧
     Some (VInt 2) ∉ InMemory.ids (delete index InMemory.my_tasks)).
Proof.
  destruct delete_task_contract as (Habsent & Hpresent & Mabsent & Mpresent).
  repeat apply conj.
  - apply Habsent. compute_done.
  - destruct (Hpresent 1 Relational.one_task)
      as (db' & Hdelete & _ & Hget & Hlater); [compute_done|].
    exists db'. repeat split; [done.. |].
    apply Hlater, consistent_one_task.
  - apply Mabsent; [apply keyed_my_tasks | compute_done].
  - destruct (Mpresent 2 InMemory.my_tasks)
      as (index & t & Ht & Hv & Hdelete & Hgone);
      [apply keyed_my_tasks | compute_done |].
    exists index, t. repeat split; [done..|].
    apply Hgone. compute_done.
Defined.

(** C6.  Retrieve by id ([Relational.get_task], the only variant with this
    route): when a row with the id is stored, the response is 200 with a
    stored row of that id, the one row with it when ids are distinct; when
    none is stored, the handler raises 404 with a detail that contains the
    id in decimal.  [GET /tasks/999] on an empty table is the instance. *)
Theorem get_task_found_or_not_found (task_id : Z) (db : Relational.database) :
  (task_id ∈ Relational.ids db →
     ∃ r, r ∈ Relational.tasks db ∧ Relational.models.id r = task_id ∧
          Relational.get_task task_id db =
            (Return (Response HTTP_200_OK r), db)) ∧
  (∀ r, NoDup (Relational.ids db) → r ∈ Relational.tasks db →
        Relational.models.id r = task_id →
        Relational.get_task task_id db =
          (Return (Response HTTP_200_OK r), db)) ∧
  (task_id ∉ Relational.ids db →
     ∃ detail,
       Relational.get_task task_id db =
         (Raise (HTTPException HTTP_404_NOT_FOUND detail), db) ∧
       contains detail (str task_id)) ∧
  Relational.get_task 999 Relational.create_all =
    (Raise (HTTPException 404 "Task with id: 999 not found"),
     Relational.create_all).
Proof.
  repeat split.
  - intros [r Hq]%query_first_is_Some.
    destruct (query_first_Some _ _ _ Hq) as [Hin Hid].
    exists r. repeat split; [done..|].
    unfold Relational.get_task. by rewrite Hq.
  - intros r Hnd Hin Hid. unfold Relational.get_task.
    by rewrite (query_first_unique db task_id r).
  - intros Habs. eexists. split; [by apply get_task_absent|].
    by exists "Task with id: ", " not found".
Qed.

Lemma get_task_found_or_not_found_witness :
  (∃ r, r ∈ Relational.tasks Relational.one_task ∧
        Relational.models.id r = 1 ∧
        Relational.get_task 1 Relational.one_task =
          (Return (Response HTTP_200_OK r), Relational.one_task)) ∧
  Relational.get_task 1 Relational.one_task =
    (Return (Response HTTP_200_OK
               (Relational.models.mkTask 1 "Buy milk" None false 0)),
     Relational.one_task) ∧
  (∃ detail,
     Relational.get_task 999 Relational.create_all =
       (Raise (HTTPException HTTP_404_NOT_FOUND detail),
        Relational.create_all) ∧
     contains detail (str 999)).
Proof.
  repeat apply conj.
  - apply (get_task_found_or_not_found 1). compute_done.
  - apply (get_task_found_or_not_found 1 Relational.one_task);
      [apply consistent_one_task | compute_done | reflexivity].
  - apply (get_task_found_or_not_found 999). compute_done.
Defined.




(** C8.  Update and delete on an id that is not stored raise the 404
    before anything is written: the handler hands back the store it was
    given, in both variants; so does the update route whatever its body. *)
Theorem absent_id_leaves_store_unchanged :
  (∀ task_id updated_task db,
     task_id ∉ Relational.ids db →
     Relational.update_task task_id updated_task db =
       (Raise (HTTPException HTTP_404_NOT_FOUND
                 ("Task with id: " +:+ str task_id +:+ " does not exist")),
        db)) ∧
  (∀ task_id db,
     task_id ∉ Relational.ids db →
     Relational.delete_task task_id db =
       (Raise (HTTPException HTTP_404_NOT_FOUND
                 ("Task with id: " +:+ str task_id +:+ " does not exist")),
        db)) ∧
  (∀ task_id body db,
     task_id ∉ Relational.ids db →
     (Relational.put_tasks task_id body db).2 = db) ∧
  (∀ id update_post tasks,
     InMemory.keyed tasks → Some (VInt id) ∉ InMemory.ids tasks →
     InMemory.update_task id update_post tasks =
       (Raise (HTTPException HTTP_404_NOT_FOUND
                 ("Task not found with this id " +:+ str id)),
        tasks)) ∧
  (∀ id tasks,
     InMemory.keyed tasks → Some (VInt id) ∉ InMemory.ids tasks →
     InMemory.delete_task id tasks =
       (Raise (HTTPException HTTP_404_NOT_FOUND
                 ("Task not found with this id " +:+ str id)),
        tasks)) ∧
  (∀ id body tasks,
     InMemory.keyed tasks → Some (VInt id) ∉ InMemory.ids tasks →
     (InMemory.put_tasks id body tasks).2 = tasks).
Proof.
  repeat apply conj.
  - intros. by apply update_task_absent.
  - intros. by apply delete_task_absent.
  - intros task_id body db Habs. unfold Relational.put_tasks.
    destruct (Relational.schemas.TaskUpdate.validate body); [|done].
    by rewrite update_task_absent.
  - intros. by apply in_memory_update_absent.
  - intros. by apply in_memory_delete_absent.
  - intros id body tasks Hk Habs. unfold InMemory.put_tasks.
    destruct (InMemory.Task_validate body); [|done].
    by rewrite in_memory_update_absent.
Qed.

Lemma absent_id_leaves_store_unchanged_witness :
  Relational.update_task 999
    (Relational.schemas.TaskUpdate.mk (Some (Some "Updated Task")) None None)
    Relational.one_task =
    (Raise (HTTPException HTTP_404_NOT_FOUND
              ("Task with id: " +:+ str 999 +:+ " does not exist")),
     Relational.one_task) ∧
  Relational.delete_task 999 Relational.one_task =
    (Raise (HTTPException HTTP_404_NOT_FOUND
              ("Task with id: " +:+ str 999 +:+ " does not exist")),
     Relational.one_task) ∧
  (Relational.put_tasks 999 buy_milk Relational.one_task).2 =
    Relational.one_task ∧
  InMemory.update_task 999 (InMemory.mkTask "a" "b" true) InMemory.my_tasks =
    (Raise (HTTPException HTTP_404_NOT_FOUND
              ("Task not found with this id " +:+ str 999)),
     InMemory.my_tasks) ∧
  InMemory.delete_task 999 InMemory.my_tasks =
    (Raise (HTTPException HTTP_404_NOT_FOUND
              ("Task not found with this id " +:+ str 999)),
     InMemory.my_tasks) ∧
  (InMemory.put_tasks 999 buy_milk InMemory.my_tasks).2 =
    InMemory.my_tasks.
Proof.
  destruct absent_id_leaves_store_unchanged
    as (Hupdate & Hdelete & Hput & Mupdate & Mdelete & Mput).
  repeat apply conj.
  - apply Hupdate. compute_done.
  - apply Hdelete. compute_done.
  - apply Hput. compute_done.
  - apply Mupdate; [apply keyed_my_tasks | compute_done].
  - apply Mdelete; [apply keyed_my_tasks | compute_done].
  - apply Mput; [apply keyed_my_tasks | compute_done].
Defined.

(** C9.  In-memory create: whatever the generator draws, the created
    record is appended with status 201 and its id lies between 3 and 9999,
    so it is neither of the seeded ids, 1 and 2. *)
Theorem create_task_id_range (new_task : InMemory.Task) (draw : N)
  (tasks : list dict) :
  InMemory.ids InMemory.my_tasks = [Some (VInt 1); Some (VInt 2)] ∧
  ∃ (task : dict) (id : Z),
    InMemory.create_task new_task draw tasks =
      (Return (Response HTTP_201_CREATED (InMemory.data_task task)),
       tasks ++ [task]) ∧
    task !! "id" = Some (VInt id) ∧
    3 ≤ id ≤ 9999 ∧
    Some (VInt id) ∉ InMemory.ids InMemory.my_tasks.
Proof.
  split; [reflexivity|].
  pose proof (randrange_bounds 3 10000 draw) as Hr.
  eexists _, (randrange 3 10000 draw). split; [reflexivity|].
  split; [apply Task_dict_id|]. split; [lia|].
  change (InMemory.ids InMemory.my_tasks) with [Some (VInt 1); Some (VInt 2)].
  rewrite !not_elem_of_cons. repeat split; [| |apply not_elem_of_nil];
    intros [= ?]; lia.
Qed.

(** C10.  In the SQLAlchemy variants the list filter is [name LIKE
    '%' || search || '%'] with the term as given: whenever the list is
    answered 200, the rows listed are the rows whose name matches that
    pattern, cut by [skip] and [limit], and it is answered 200 for a term
    without NUL and counts from 0 up to the engine's 64-bit bound.  So a
    term with [_] or [%] in it can list a task whose name does not
    contain the term: ["_"] and ["B%k"] both list "Buy milk". *)
Theorem contains_filter_is_unescaped_like :
  (∀ limit skip search db db' rows,
     Relational.get_tasks limit skip search db =
       (Return (Response HTTP_200_OK rows), db') →
     db' = db ∧
     rows =
       take (Z.to_nat limit)
         (drop (Z.to_nat skip)
            (filter
               (λ r, like ("%" +:+ search +:+ "%")
                       (Relational.models.name r))
               (Relational.tasks db)))) ∧
  (∀ limit skip search db,
     bindable search = true → 0 ≤ limit < 2 ^ 63 → 0 ≤ skip < 2 ^ 63 →
     Relational.get_tasks limit skip search db =
       (Return
          (Response HTTP_200_OK
             (take (Z.to_nat limit)
                (drop (Z.to_nat skip)
                   (filter
                      (λ r, like ("%" +:+ search +:+ "%")
                              (Relational.models.name r))
                      (Relational.tasks db))))),
        db)) ∧
  (∃ search db rows r,
     occurs "_" search = true ∧
     Relational.get_tasks 10 0 search db =
       (Return (Response HTTP_200_OK rows), db) ∧
     r ∈ rows ∧ ¬ contains (Relational.models.name r) search) ∧
  (∃ search db rows r,
     occurs "%" search = true ∧
     Relational.get_tasks 10 0 search db =
       (Return (Response HTTP_200_OK rows), db) ∧
     r ∈ rows ∧ ¬ contains (Relational.models.name r) search).
Proof.
  split; [intros *; apply get_tasks_Return|].
  split; [intros; by apply get_tasks_rows|].
  split.
  - exists "_", Relational.one_task,
      [Relational.models.mkTask 1 "Buy milk" None false 0],
      (Relational.models.mkTask 1 "Buy milk" None false 0).
    repeat split; [compute_done | by apply containsb_false].
  - exists "B%k", Relational.one_task,
      [Relational.models.mkTask 1 "Buy milk" None false 0],
      (Relational.models.mkTask 1 "Buy milk" None false 0).
    repeat split; [compute_done | by apply containsb_false].
Qed.

Lemma contains_filter_is_unescaped_like_witness :
  (Relational.one_task = Relational.one_task ∧
   [Relational.models.mkTask 1 "Buy milk" None false 0] =
     take (Z.to_nat 10)
       (drop (Z.to_nat 0)
          (filter
             (λ r, like ("%" +:+ "_" +:+ "%") (Relational.models.name r))
             (Relational.tasks Relational.one_task)))) ∧
  Relational.get_tasks 10 0 "_" Relational.one_task =
    (Return
       (Response HTTP_200_OK
          (take (Z.to_nat 10)
             (drop (Z.to_nat 0)
                (filter
                   (λ r, like ("%" +:+ "_" +:+ "%")
                           (Relational.models.name r))
                   (Relational.tasks Relational.one_task))))),
     Relational.one_task).
Proof.
  destruct contains_filter_is_unescaped_like as (Hany & Hok & _).
  split.
  - apply (Hany 10 0 "_" Relational.one_task). reflexivity.
  - apply (Hok 10 0 "_"); [reflexivity | lia | lia].
Defined.

(** * Further properties *)

(** ** The in-memory list *)

Section in_memory_further.
Import InMemory.

Implicit Types (tasks : list dict) (t : dict) (id : Z).

(** The search reads nothing of a record but its id. *)
Lemma find_post_index_from_ids (n : nat) tasks tasks' id :
  ids tasks = ids tasks' →
  find_post_index_from n tasks id = find_post_index_from n tasks' id.
Proof.
  revert n tasks'. induction tasks as [|t tasks IH]; intros n [|t' tasks'] H;
    try done.
  unfold ids in H. rewrite !fmap_cons in H. injection H as Ht H.
  simpl. rewrite Ht. destruct (t' !! "id") as [v|]; [|done].
  destruct (py_eq v (VInt id)); [done|]. by apply IH.
Qed.

Lemma find_post_index_from_app_absent (n : nat) tasks tasks' id :
  keyed tasks → Some (VInt id) ∉ ids tasks →
  find_post_index_from n (tasks ++ tasks') id =
    find_post_index_from (n + List.length tasks) tasks' id.
Proof.
  revert n. induction tasks as [|t tasks IH]; intros n Hk Hid; simpl.
  - by rewrite Nat.add_0_r.
  - apply Forall_cons in Hk as [[z Hz] Hk].
    unfold ids in Hid. rewrite fmap_cons in Hid.
    apply not_elem_of_cons in Hid as [Hne Hid].
    rewrite Hz, py_eq_int, bool_decide_eq_false_2 by congruence.
    rewrite IH by done. f_equal. lia.
Qed.

Lemma find_post_index_from_app_found (n k : nat) tasks tasks' id :
  find_post_index_from n tasks id = Return (Some k) →
  find_post_index_from n (tasks ++ tasks') id = Return (Some k).
Proof.
  revert n. induction tasks as [|t tasks IH]; intros n H; [done|].
  simpl in *. destruct (t !! "id") as [v|]; [|done].
  destruct (py_eq v (VInt id)); [done | by apply IH].
Qed.

Lemma delete_app_lt {A} (l k : list A) (i : nat) :
  (i < List.length l)%nat → delete i (l ++ k) = delete i l ++ k.
Proof.
  revert i. induction l as [|x l IH]; intros [|i] Hi; simpl in *;
    [lia | lia | done |].
  f_equal. apply IH. lia.
Qed.

(** On a keyed list the search ends in one of two ways. *)
Lemma find_post_index_cases tasks id :
  keyed tasks →
  ((Some (VInt id) ∉ ids tasks) ∧ find_post_index tasks id = Return None) ∨
  (∃ (index : nat) t,
     find_post_index tasks id = Return (Some index) ∧
     tasks !! index = Some t ∧ t !! "id" = Some (VInt id) ∧
     ∀ j : nat, (j < index)%nat → ids tasks !! j ≠ Some (Some (VInt id))).
Proof.
  intros Hk. destruct (decide (Some (VInt id) ∈ ids tasks)) as [Hin|Hout].
  - right. destruct (find_post_index_present tasks id Hk Hin) as [index Hf].
    destruct (find_post_index_keyed tasks id index Hk Hf) as (t & Ht & Hv).
    exists index, t. repeat split; [done..|].
    apply find_post_index_from_Some in Hf
      as (i & t' & v & -> & _ & _ & _ & Hfirst).
    intros j Hj Hl. unfold ids in Hl. rewrite list_lookup_fmap in Hl.
    destruct (tasks !! j) as [tj|] eqn:Htj; [|done].
    simpl in Hl. injection Hl as Hl.
    destruct (Hfirst j tj) as (v' & Hv' & Hne); [lia | done |].
    rewrite Hl in Hv'. injection Hv' as <-.
    rewrite py_eq_int, bool_decide_eq_false in Hne. done.
  - left. split; [done | by apply find_post_index_absent].
Qed.

(** X1.  [find_post_index] on a list whose records all carry an integer
    id: it returns [None] exactly when no record has the id, and otherwise
    the first position that holds it. *)
Theorem find_post_index_first_match tasks id :
  keyed tasks →
  (Some (VInt id) ∉ ids tasks → find_post_index tasks id = Return None) ∧
  (Some (VInt id) ∈ ids tasks →
   ∃ index : nat,
     find_post_index tasks id = Return (Some index) ∧
     ids tasks !! index = Some (Some (VInt id)) ∧
     ∀ j : nat, (j < index)%nat → ids tasks !! j ≠ Some (Some (VInt id))).
Proof.
  intros Hk. split.
  - intros Hout. by apply find_post_index_absent.
  - intros Hin.
    destruct (find_post_index_cases tasks id Hk)
      as [[Hout _] | (index & t & Hf & Ht & Hv & Hfirst)]; [done|].
    exists index. repeat split; [done | | done].
    unfold ids. by rewrite list_lookup_fmap, Ht; simpl; rewrite Hv.
Qed.

Lemma find_post_index_first_match_witness :
  find_post_index my_tasks 7 = Return None ∧
  ∃ index : nat,
    find_post_index my_tasks 2 = Return (Some index) ∧
    ids my_tasks !! index = Some (Some (VInt 2)) ∧
    ∀ j : nat, (j < index)%nat → ids my_tasks !! j ≠ Some (Some (VInt 2)).
Proof.
  split.
  - apply (find_post_index_first_match my_tasks 7 keyed_my_tasks).
    compute_done.
  - apply (find_post_index_first_match my_tasks 2 keyed_my_tasks).
    compute_done.
Defined.

Lemma Task_validate_cases (body : dict) :
  (∃ new_task, Task_validate body = Return new_task) ∨
  (∃ key, Task_validate body = Raise (RequestValidationError key)).
Proof.
  unfold Task_validate.
  destruct (required_cases "name" str_field body) as [[n ->] | ->];
    [|right; by eexists].
  destruct (required_cases "task" str_field body) as [[t ->] | ->];
    [|right; by eexists].
  unfold defaulted. destruct (body !! "completed") as [v|];
    [|left; by eexists].
  destruct (bool_field v); [left | right]; by eexists.
Qed.

Lemma keyed_serve tasks req : keyed tasks → keyed (serve tasks req).
Proof.
  intros Hk. destruct req as [|body draw|id|id body]; unfold serve; simpl.
  - done.
  - unfold post_tasks. destruct (Task_validate body); [|done].
    by apply keyed_create_task.
  - by apply keyed_delete_task.
  - unfold put_tasks. destruct (Task_validate body); [|done].
    by apply keyed_update_task.
Qed.

Lemma keyed_serve_all tasks reqs : keyed tasks → keyed (serve_all tasks reqs).
Proof.
  revert tasks. induction reqs as [|req reqs IH]; intros tasks Hk; [done|].
  simpl. apply IH. by apply keyed_serve.
Qed.

Lemma handle_status tasks req :
  keyed tasks →
  status_of (handle tasks req).1 ∈ [200; 201; 204; 404; 422].
Proof.
  intros Hk. destruct req as [|body draw|id|id body]; simpl.
  - set_solver.
  - unfold post_tasks.
    destruct (Task_validate_cases body) as [[t ->] | [key ->]]; simpl;
      set_solver.
  - unfold delete_task.
    destruct (find_post_index_cases tasks id Hk)
      as [[_ ->] | (index & t & -> & _)]; simpl; set_solver.
  - unfold put_tasks.
    destruct (Task_validate_cases body) as [[t ->] | [key ->]]; simpl;
      [|set_solver].
    unfold update_task.
    destruct (find_post_index_cases tasks id Hk)
      as [[_ ->] | (index & t' & -> & _)]; simpl; set_solver.
Qed.

(** X2.  Every record carrying an integer id is an invariant of the
    in-memory routes, and on such a list no request ends in a server
    error: whatever requests came before, a request is answered 200, 201,
    204, 404 or 422 (the [KeyError] of [task["id"]] never fires). *)
Theorem in_memory_requests_never_fail tasks reqs req :
  keyed tasks →
  keyed (serve_all tasks reqs) ∧
  status_of (handle (serve_all tasks reqs) req).1
    ∈ [200; 201; 204; 404; 422].
Proof.
  intros Hk. split; [by apply keyed_serve_all|].
  by apply handle_status, keyed_serve_all.
Qed.

Lemma in_memory_requests_never_fail_witness :
  keyed (serve_all my_tasks [POST_tasks buy_milk 0; DELETE_tasks 1]) ∧
  status_of
    (handle (serve_all my_tasks [POST_tasks buy_milk 0; DELETE_tasks 1])
       (DELETE_tasks 1)).1
    ∈ [200; 201; 204; 404; 422].
Proof.
  apply in_memory_requests_never_fail, keyed_my_tasks.
Defined.

Lemma ids_update_task tasks id update_post :
  keyed tasks → ids (update_task id update_post tasks).2 = ids tasks.
Proof.
  intros Hk. unfold update_task.
  destruct (find_post_index_cases tasks id Hk)
    as [[_ ->] | (index & t & -> & Ht & Hv & _)]; simpl; [done|].
  unfold ids. rewrite list_fmap_insert. apply list_insert_id.
  by rewrite list_lookup_fmap, Ht, Task_dict_id; simpl; rewrite Hv.
Qed.

(** X3.  In-memory update writes one position and leaves the ids alone:
    the list keeps its length and its ids, in order, whether the update
    succeeds or answers 404. *)
Theorem in_memory_update_keeps_ids tasks id update_post :
  keyed tasks →
  ids (update_task id update_post tasks).2 = ids tasks ∧
  List.length (update_task id update_post tasks).2 = List.length tasks.
Proof.
  intros Hk. split; [by apply ids_update_task|].
  rewrite <-(length_fmap (λ t : dict, t !! "id")).
  fold (ids (update_task id update_post tasks).2).
  rewrite ids_update_task by done. unfold ids. by rewrite length_fmap.
Qed.

Lemma in_memory_update_keeps_ids_witness :
  ids (update_task 2 (mkTask "a" "t" true) my_tasks).2 = ids my_tasks ∧
  List.length (update_task 2 (mkTask "a" "t" true) my_tasks).2 =
    List.length my_tasks.
Proof. apply in_memory_update_keeps_ids, keyed_my_tasks. Defined.

(** X4.  In-memory delete of a stored id takes out the first record with
    that id and nothing else: the list after it is the list before it
    without that one position, one record shorter. *)
Theorem in_memory_delete_removes_first tasks id :
  keyed tasks → Some (VInt id) ∈ ids tasks →
  ∃ index : nat,
    ids tasks !! index = Some (Some (VInt id)) ∧
    (∀ j : nat, (j < index)%nat → ids tasks !! j ≠ Some (Some (VInt id))) ∧
    (delete_task id tasks).2 = (take index tasks ++ drop (S index) tasks) ∧
    S (List.length (delete_task id tasks).2) = List.length tasks.
Proof.
  intros Hk Hin. unfold delete_task.
  destruct (find_post_index_cases tasks id Hk)
    as [[Hout _] | (index & t & -> & Ht & Hv & Hfirst)]; [done|].
  exists index. simpl. repeat split; [| done | apply delete_take_drop |].
  - unfold ids. by rewrite list_lookup_fmap, Ht; simpl; rewrite Hv.
  - rewrite length_delete by eauto. apply lookup_lt_Some in Ht. lia.
Qed.

Lemma in_memory_delete_removes_first_witness :
  ∃ index : nat,
    ids my_tasks !! index = Some (Some (VInt 1)) ∧
    (∀ j : nat, (j < index)%nat → ids my_tasks !! j ≠ Some (Some (VInt 1))) ∧
    (delete_task 1 my_tasks).2 =
      (take index my_tasks ++ drop (S index) my_tasks) ∧
    S (List.length (delete_task 1 my_tasks).2) = List.length my_tasks.
Proof.
  apply in_memory_delete_removes_first; [apply keyed_my_tasks | compute_done].
Defined.

(** X5.  In-memory create followed by delete of the id it drew, when no
    stored record had that id: the delete answers 204 and the list is the
    one before the create. *)
Theorem in_memory_create_delete_round_trip tasks new_task (draw : N) :
  keyed tasks → Some (VInt (randrange 3 10000 draw)) ∉ ids tasks →
  delete_task (randrange 3 10000 draw) (create_task new_task draw tasks).2 =
    (Return (Response HTTP_204_NO_CONTENT empty), tasks).
Proof.
  intros Hk Hout. unfold delete_task, find_post_index. simpl.
  rewrite find_post_index_from_app_absent by done. simpl.
  rewrite Task_dict_id, py_eq_int, bool_decide_eq_true_2 by done.
  by rewrite (delete_middle tasks []), app_nil_r.
Qed.

Lemma in_memory_create_delete_round_trip_witness :
  delete_task (randrange 3 10000 0)
    (create_task (mkTask "a" "t" false) 0 my_tasks).2 =
    (Return (Response HTTP_204_NO_CONTENT empty), my_tasks).
Proof.
  apply in_memory_create_delete_round_trip;
    [apply keyed_my_tasks | compute_done].
Defined.

(** X6.  In-memory create that draws an id already stored, followed by
    delete of that id: the delete takes out the older record, and the
    record just created stays, last in the list. *)
Theorem in_memory_delete_after_collision tasks new_task (draw : N) :
  keyed tasks → Some (VInt (randrange 3 10000 draw)) ∈ ids tasks →
  ∃ (index : nat) t,
    tasks !! index = Some t ∧
    t !! "id" = Some (VInt (randrange 3 10000 draw)) ∧
    delete_task (randrange 3 10000 draw)
      (create_task new_task draw tasks).2 =
      (Return (Response HTTP_204_NO_CONTENT empty),
       delete index tasks ++
         [<["id" := VInt (randrange 3 10000 draw)]> (Task_dict new_task)]).
Proof.
  intros Hk Hin.
  destruct (find_post_index_cases tasks (randrange 3 10000 draw) Hk)
    as [[Hout _] | (index & t & Hf & Ht & Hv & _)]; [done|].
  exists index, t. repeat split; [done..|].
  unfold delete_task, find_post_index. simpl.
  rewrite (find_post_index_from_app_found _ _ _ _ _ Hf).
  rewrite delete_app_lt; [done|]. by apply lookup_lt_Some in Ht.
Qed.

Lemma in_memory_delete_after_collision_witness :
  ∃ (index : nat) t,
    (create_task (mkTask "a" "a" false) 2 my_tasks).2 !! index = Some t ∧
    t !! "id" = Some (VInt (randrange 3 10000 2)) ∧
    delete_task (randrange 3 10000 2)
      (create_task (mkTask "b" "b" false) 2
         (create_task (mkTask "a" "a" false) 2 my_tasks).2).2 =
      (Return (Response HTTP_204_NO_CONTENT empty),
       delete index (create_task (mkTask "a" "a" false) 2 my_tasks).2 ++
         [<["id" := VInt (randrange 3 10000 2)]>
            (Task_dict (mkTask "b" "b" false))]).
Proof.
  apply in_memory_delete_after_collision;
    [apply keyed_create_task, keyed_my_tasks | compute_done].
Defined.

(** X7.  In-memory update is idempotent: the same update a second time
    gets the same answer and leaves the same list. *)
Theorem in_memory_update_idempotent tasks id update_post :
  keyed tasks →
  update_task id update_post (update_task id update_post tasks).2 =
    update_task id update_post tasks.
Proof.
  intros Hk.
  pose proof (ids_update_task tasks id update_post Hk) as Hids.
  unfold update_task in *. unfold find_post_index in *.
  destruct (find_post_index_from 0 tasks id) as [[index|]|e] eqn:Hf;
    simpl in *; rewrite ?Hf; [|done..].
  rewrite (find_post_index_from_ids _ _ _ _ Hids), Hf.
  by rewrite list_insert_insert_eq.
Qed.

Lemma in_memory_update_idempotent_witness :
  update_task 2 (mkTask "a" "t" true)
    (update_task 2 (mkTask "a" "t" true) my_tasks).2 =
    update_task 2 (mkTask "a" "t" true) my_tasks.
Proof. apply in_memory_update_idempotent, keyed_my_tasks. Defined.

(** The dict of a [Task], read as a request body, validates to the same
    [Task], also with an [id] entry added to it as stored records have. *)
Lemma Task_dict_validate (new_task : Task) (z : Z) :
  Task_validate (Task_dict new_task) = Return new_task ∧
  Task_validate (<["id" := VInt z]> (Task_dict new_task)) = Return new_task.
Proof. by destruct new_task. Qed.

(** X8.  Putting back what was stored changes nothing: an update whose
    body is the record that create or update wrote for the id, as the
    list shows it, is answered 200 with that record and leaves the list
    as it was. *)
Theorem in_memory_put_back_is_noop tasks id (index : nat) (stored : Task) :
  find_post_index tasks id = Return (Some index) →
  tasks !! index = Some (<["id" := VInt id]> (Task_dict stored)) →
  put_tasks id (<["id" := VInt id]> (Task_dict stored)) tasks =
    (Return (Response HTTP_200_OK
               (data_task (<["id" := VInt id]> (Task_dict stored)))),
     tasks).
Proof.
  intros Hf Ht. unfold put_tasks.
  rewrite (proj2 (Task_dict_validate stored id)).
  unfold update_task. rewrite Hf. by rewrite list_insert_id.
Qed.

Lemma in_memory_put_back_is_noop_witness :
  put_tasks 3 (<["id" := VInt 3]> (Task_dict (mkTask "a" "t" true)))
    (create_task (mkTask "a" "t" true) 0 my_tasks).2 =
    (Return (Response HTTP_200_OK
               (data_task (<["id" := VInt 3]>
                             (Task_dict (mkTask "a" "t" true))))),
     (create_task (mkTask "a" "t" true) 0 my_tasks).2).
Proof.
  apply (in_memory_put_back_is_noop _ 3 2 (mkTask "a" "t" true));
    reflexivity.
Defined.

(** X9.  In-memory create can assign any id from 3 to 9999: for each there
    is a draw of the generator that gives it, on any list. *)
Theorem create_task_reaches_every_id tasks new_task id :
  3 ≤ id ≤ 9999 →
  ∃ draw : N,
    (create_task new_task draw tasks).2 =
      (tasks ++ [<["id" := VInt id]> (Task_dict new_task)]).
Proof.
  intros Hid. exists (Z.to_N (id - 3)).
  assert (randrange 3 10000 (Z.to_N (id - 3)) = id) as Hdraw.
  { unfold randrange, randbelow. rewrite Z2N.id by lia.
    rewrite Z.mod_small by lia. lia. }
  simpl. by rewrite Hdraw.
Qed.

Lemma create_task_reaches_every_id_witness :
  ∃ draw : N,
    (create_task (mkTask "a" "t" false) draw my_tasks).2 =
      (my_tasks ++ [<["id" := VInt 9999]> (Task_dict (mkTask "a" "t" false))]).
Proof.
  apply (create_task_reaches_every_id my_tasks (mkTask "a" "t" false) 9999).
  split; [by apply Z.leb_le | by apply Z.leb_le].
Defined.

End in_memory_further.

(** ** The relational table *)

Section relational_further.
Import Relational.

Implicit Types (db : database) (r row stored : models.Task) (task_id : Z).
Implicit Types (u : schemas.TaskUpdate.t).

Lemma query_first_delete_row_ne db (i j : Z) :
  j ≠ i → query_first (delete_row i db) j = query_first db j.
Proof.
  intros Hne. unfold query_first, delete_row; simpl.
  induction (tasks db) as [|r l IH]; [done|].
  rewrite !filter_cons. destruct (decide (models.id r ≠ i)) as [Hr|Hr].
  - rewrite filter_cons. destruct (decide (models.id r = j)); [done|].
    apply IH.
  - rewrite decide_False; [apply IH|]. apply dec_stable in Hr. congruence.
Qed.

Lemma query_first_app_ne (rows : list models.Task) row (seq seq' j : Z) :
  j ≠ models.id row →
  query_first (mkDatabase (rows ++ [row]) seq) j =
    query_first (mkDatabase rows seq') j.
Proof.
  intros Hne. unfold query_first; simpl.
  rewrite filter_app, filter_cons_False, filter_nil, app_nil_r; [done|].
  congruence.
Qed.

Lemma query_first_update_row_ne db (i j : Z) row :
  models.id row = i → j ≠ i →
  query_first (update_row i row db) j = query_first db j.
Proof.
  intros Hid Hne.
  rewrite <-(query_first_delete_row_ne db i j Hne).
  destruct (delete_row i db) as [rows seq] eqn:Hd.
  assert (update_row i row db = mkDatabase (rows ++ [row]) (tasks_id_seq db))
    as ->.
  { unfold update_row. f_equal.
    change (filter (λ r, models.id r ≠ i) (tasks db))
      with (tasks (delete_row i db)). by rewrite Hd. }
  apply query_first_app_ne. congruence.
Qed.

Lemma patched_unset stored :
  patched (schemas.TaskUpdate.mk None None None) stored = Some stored.
Proof. by destruct stored. Qed.

Lemma patched_again u stored new :
  patched u stored = Some new → patched u new = Some new.
Proof.
  destruct u as [[[n|]|] [d|] [[c|]|]], stored as [i n0 d0 c0 t0];
    unfold patched; simpl; intros [= <-]; done.
Qed.

(** X10.  The primary key holds after any requests on a fresh table: the
    stored ids are pairwise distinct and all below the next value of the
    sequence. *)
Theorem relational_requests_keep_primary_key (reqs : list request) :
  NoDup (ids (serve_all create_all reqs)) ∧
  ∀ i, i ∈ ids (serve_all create_all reqs) →
       i < tasks_id_seq (serve_all create_all reqs).
Proof. apply serve_all_consistent, consistent_create_all. Qed.



(** X12.  The create and update bodies are read at their declared fields
    only: an entry under any other key, [id] or [created_at] among them,
    changes neither the answer nor the database. *)
Theorem undeclared_body_keys_are_ignored (key : string) (v : value)
  (body : dict) (now task_id : Z) db :
  key ≠ "name" → key ≠ "description" → key ≠ "completed" →
  post_tasks (<[key := v]> body) now db = post_tasks body now db ∧
  put_tasks task_id (<[key := v]> body) db = put_tasks task_id body db.
Proof.
  intros Hn Hd Hc.
  unfold post_tasks, put_tasks, schemas.TaskCreate.validate,
    schemas.TaskUpdate.validate, required, defaulted, tracked.
  by rewrite !lookup_insert_ne.
Qed.

Lemma undeclared_body_keys_are_ignored_witness :
  post_tasks (<["id" := VInt 41]> buy_milk) 0 one_task =
    post_tasks buy_milk 0 one_task ∧
  put_tasks 1 (<["id" := VInt 41]> buy_milk) one_task =
    put_tasks 1 buy_milk one_task.
Proof. by apply undeclared_body_keys_are_ignored. Defined.

(** X13.  The [setattr] loop of update writes no attribute but [name],
    [description] and [completed]: on any object, [id] and [created_at]
    read the same after it as before. *)
Theorem apply_update_keeps_id_and_created_at u (task : dict) :
  apply_update u task !! "id" = task !! "id" ∧
  apply_update u task !! "created_at" = task !! "created_at".
Proof.
  destruct u as [[[n|]|] [[d|]|] [[c|]|]];
    unfold apply_update, setattr; simpl;
    by rewrite ?lookup_insert_ne.
Qed.

(** X15.  Relational update with a body that has none of [name],
    [description], [completed], the empty body among them, on a stored id
    of a database with distinct ids: the answer is 200 with the stored
    row, and the database is as it was. *)
Theorem relational_update_without_fields task_id (body : dict) db stored :
  NoDup (ids db) → query_first db task_id = Some stored →
  body !! "name" = None → body !! "description" = None →
  body !! "completed" = None →
  put_tasks task_id body db = (Return (Response HTTP_200_OK stored), db).
Proof.
  intros Hnd Hq Hn Hd Hc.
  unfold put_tasks, schemas.TaskUpdate.validate, tracked.
  rewrite Hn, Hd, Hc. simpl.
  by rewrite (update_task_unchanged _ _ _ stored Hq (patched_unset stored)).
Qed.

Lemma relational_update_without_fields_witness :
  put_tasks 1 ∅ one_task =
    (Return (Response HTTP_200_OK (models.mkTask 1 "Buy milk" None false 0)),
     one_task).
Proof.
  apply relational_update_without_fields;
    [apply consistent_one_task | done..].
Defined.

(** X16.  Relational update is idempotent: the same update a second time
    gets the same answer and leaves the same database, whether the first
    was applied, refused or answered 404. *)
Theorem relational_update_idempotent task_id u db :
  update_task task_id u (update_task task_id u db).2 =
    update_task task_id u db.
Proof.
  destruct (query_first db task_id) as [stored|] eqn:Hq.
  - destruct (decide (patched u stored = Some stored)) as [Hsame|Hdiff].
    { rewrite (update_task_unchanged _ _ _ _ Hq Hsame). simpl.
      by apply update_task_unchanged. }
    destruct (forallb bindable_value (sends u stored)) eqn:Hb.
    + destruct (patched u stored) as [new|] eqn:Hp.
      * assert (new ≠ stored) as Hne by congruence.
        rewrite (update_task_patched _ _ _ _ _ Hq Hp Hne Hb). simpl.
        destruct (patched_id _ _ _ Hp) as [Hid _].
        destruct (query_first_Some _ _ _ Hq) as [_ Hsid].
        apply update_task_unchanged.
        -- apply query_first_update_row. congruence.
        -- by apply patched_again with stored.
      * rewrite (update_task_refused _ _ _ _ Hq Hp Hb). simpl.
        by apply update_task_refused with stored.
    + rewrite (update_task_unbindable _ _ _ _ Hq Hdiff Hb). simpl.
      by apply update_task_unbindable with stored.
  - apply query_first_None in Hq.
    rewrite (update_task_absent _ _ _ Hq). simpl.
    by apply update_task_absent.
Qed.

(** X17.  Relational delete a second time on the same id answers 404 and
    leaves the database the first delete left, whatever the first did. *)
Theorem relational_delete_twice task_id db :
  delete_task task_id (delete_task task_id db).2 =
    (Raise (does_not_exist task_id), (delete_task task_id db).2).
Proof.
  apply delete_task_absent.
  destruct (decide (task_id ∈ ids db)) as [Hin|Hout].
  - rewrite (delete_task_present _ _ Hin). simpl.
    rewrite ids_delete_row. tauto.
  - by rewrite (delete_task_absent _ _ Hout).
Qed.

(** X18.  A write on one id does not show on another: retrieve on an id
    answers the same after a delete or an update of a different id, and
    after a create when the id is not the one the sequence hands out. *)
Theorem writes_leave_other_ids_alone (i j : Z) db :
  j ≠ i →
  (get_task j (delete_task i db).2).1 = (get_task j db).1 ∧
  (∀ u, (get_task j (update_task i u db).2).1 = (get_task j db).1) ∧
  (∀ task now,
     j ≠ tasks_id_seq db →
     (get_task j (create_task task now db).2).1 = (get_task j db).1).
Proof.
  intros Hne. unfold get_task. repeat split.
  - destruct (delete_task_state i db) as [-> | ->]; [done|].
    rewrite query_first_delete_row_ne by done.
    by destruct (query_first db j).
  - intros u.
    destruct (update_task_state i u db) as [-> | (new & Hnew & _ & ->)];
      [done|].
    rewrite query_first_update_row_ne by done.
    by destruct (query_first db j).
  - intros task now Hseq. unfold create_task, insert.
    destruct (negb _); simpl; [done|].
    case_bool_decide; simpl.
    + change (query_first (mkDatabase (tasks db) (tasks_id_seq db + 1)) j)
        with (query_first db j).
      by destruct (query_first db j).
    + rewrite (query_first_app_ne _ _ _ (tasks_id_seq db)) by done.
      change (query_first (mkDatabase (tasks db) (tasks_id_seq db)) j)
        with (query_first db j).
      by destruct (query_first db j).
Qed.

Lemma writes_leave_other_ids_alone_witness :
  (get_task 1 (delete_task 5 one_task).2).1 = (get_task 1 one_task).1 ∧
  (∀ u, (get_task 1 (update_task 5 u one_task).2).1 =
        (get_task 1 one_task).1) ∧
  (get_task 1
     (create_task (schemas.TaskCreate.mk "a" None false) 3 one_task).2).1 =
    (get_task 1 one_task).1.
Proof.
  destruct (writes_leave_other_ids_alone 5 1 one_task) as (Hd & Hu & Hc);
    [done|].
  split; [exact Hd | split; [exact Hu | by apply Hc]].
Defined.

End relational_further.

(** ** The list query and [LIKE] *)

Lemma some_suffix_here (k : string → bool) (s : string) :
  k s = true → some_suffix k s = true.
Proof. intros Hk. destruct s; simpl; by rewrite Hk. Qed.

Lemma some_suffix_app (k : string → bool) (pre s : string) :
  k s = true → some_suffix k (pre +:+ s) = true.
Proof.
  intros Hk. induction pre as [|a pre IH]; simpl.
  - by apply some_suffix_here.
  - rewrite IH. apply orb_true_r.
Qed.

Lemma like_all_percent (s : string) : like (contains_pattern "%") s = true.
Proof.
  change (like (contains_pattern "%") s) with (some_suffix (like "%%") s).
  apply some_suffix_end. reflexivity.
Qed.

(** A pattern without backslash, closed by [%], matches every text that
    starts with the pattern's own characters. *)
Lemma like_own_characters (p rest : string) :
  occurs "\" p = false → like (p +:+ "%") (p +:+ rest) = true.
Proof.
  induction p as [|c p IH]; intros Hp.
  - apply like_percent.
  - change (occurs "\" (String c p))
      with (Ascii.eqb "\" c || occurs "\" p) in Hp.
    apply orb_false_elim in Hp as [Hc Hp].
    specialize (IH Hp).
    change (String c p +:+ "%") with (String c (p +:+ "%")).
    change (String c p +:+ rest) with (String c (p +:+ rest)).
    simpl. destruct (Ascii.eqb c "%") eqn:H1.
    { rewrite (some_suffix_here _ _ IH). apply orb_true_r. }
    destruct (Ascii.eqb_spec c "_") as [->|H2]; [done|].
    rewrite Ascii.eqb_sym in Hc. rewrite Hc.
    by rewrite Ascii.eqb_refl.
Qed.

(** [_] stands for one character, also one that UTF-8 writes in two
    bytes (here U+00E9). *)
Lemma like_underscore_one_character :
  like "_" (String (ascii_of_nat 195) (String (ascii_of_nat 169) "")) = true ∧
  like "__" (String (ascii_of_nat 195) (String (ascii_of_nat 169) "")) = false ∧
  like "__" "ab" = true.
Proof. repeat split. Qed.

Lemma like_contains (search s : string) :
  occurs "\" search = false → contains s search →
  like (contains_pattern search) s = true.
Proof.
  intros Hs (pre & post & ->). unfold contains_pattern.
  change (like ("%" +:+ search +:+ "%") (pre +:+ search +:+ post))
    with (some_suffix (like (search +:+ "%")) (pre +:+ search +:+ post)).
  apply some_suffix_app. by apply like_own_characters.
Qed.

(** X19.  Relational list pages fit together: for counts that are not
    negative and stay within the 64-bit range of [LIMIT] and [OFFSET], and
    a search term without NUL, the page of [a] tasks after [skip] followed
    by the page of [b] tasks after [skip + a] is the page of [a + b] tasks
    after [skip]; a page has at most [limit] tasks, all of them stored, in
    storage order. *)
Theorem get_tasks_pages_concatenate (a b skip : Z) (search : string)
  (db : Relational.database) :
  bindable search = true →
  0 ≤ a → 0 ≤ b → 0 ≤ skip → a + b < 2 ^ 63 → skip + a < 2 ^ 63 →
  ∃ page1 page2,
    Relational.get_tasks a skip search db =
      (Return (Response HTTP_200_OK page1), db) ∧
    Relational.get_tasks b (skip + a) search db =
      (Return (Response HTTP_200_OK page2), db) ∧
    Relational.get_tasks (a + b) skip search db =
      (Return (Response HTTP_200_OK (page1 ++ page2)), db) ∧
    (List.length page1 ≤ Z.to_nat a)%nat ∧
    page1 `sublist_of` Relational.tasks db.
Proof.
  intros Hn Ha Hb Hs Hab Hsa. rewrite !get_tasks_rows by (done || lia).
  eexists _, _. split; [done|]. split; [done|]. split; [|split].
  - rewrite (Z2Nat.inj_add skip a), (Z2Nat.inj_add a b) by lia.
    by rewrite <-drop_drop, take_take_drop.
  - rewrite length_take. lia.
  - etrans; [apply sublist_take|]. etrans; [apply sublist_drop|].
    apply sublist_filter.
Qed.

Lemma get_tasks_pages_concatenate_witness :
  ∃ page1 page2,
    Relational.get_tasks 1 0 "milk" Relational.one_task =
      (Return (Response HTTP_200_OK page1), Relational.one_task) ∧
    Relational.get_tasks 1 (0 + 1) "milk" Relational.one_task =
      (Return (Response HTTP_200_OK page2), Relational.one_task) ∧
    Relational.get_tasks (1 + 1) 0 "milk" Relational.one_task =
      (Return (Response HTTP_200_OK (page1 ++ page2)), Relational.one_task) ∧
    (List.length page1 ≤ Z.to_nat 1)%nat ∧
    page1 `sublist_of` Relational.tasks Relational.one_task.
Proof. apply get_tasks_pages_concatenate; [reflexivity | lia..]. Defined.

(** X20.  The search term ["%"] filters nothing: for [limit] and [skip]
    that are not negative and below 2^63 the list is the whole table
    within [limit] and [skip], whatever the names. *)
Theorem get_tasks_percent_lists_all (limit skip : Z)
  (db : Relational.database) :
  0 ≤ limit < 2 ^ 63 → 0 ≤ skip < 2 ^ 63 →
  Relational.get_tasks limit skip "%" db =
    (Return (Response HTTP_200_OK
               (take (Z.to_nat limit)
                  (drop (Z.to_nat skip) (Relational.tasks db)))),
     db).
Proof.
  intros Hl Hs. rewrite get_tasks_rows by done.
  assert (filter (λ r, like ("%" +:+ "%" +:+ "%") (Relational.models.name r))
            (Relational.tasks db) = Relational.tasks db) as ->; [|done].
  induction (Relational.tasks db) as [|r rows IH]; [done|].
  rewrite filter_cons_True; [by rewrite IH|].
  apply Is_true_true, (like_all_percent (Relational.models.name r)).
Qed.

Lemma get_tasks_percent_lists_all_witness :
  Relational.get_tasks 10 0 "%" Relational.one_task =
    (Return (Response HTTP_200_OK
               (take (Z.to_nat 10)
                  (drop (Z.to_nat 0) (Relational.tasks Relational.one_task)))),
     Relational.one_task).
Proof. apply get_tasks_percent_lists_all; lia. Defined.

(** X21.  For a search term without backslash and without NUL the [LIKE]
    filter only widens the match: a stored task whose name contains the
    term is listed when [limit], below 2^63, covers the table and nothing
    is skipped. *)
Theorem get_tasks_lists_literal_matches (limit : Z) (search : string)
  (db : Relational.database) (r : Relational.models.Task) :
  occurs "\" search = false → bindable search = true →
  Z.of_nat (List.length (Relational.tasks db)) ≤ limit < 2 ^ 63 →
  r ∈ Relational.tasks db → contains (Relational.models.name r) search →
  ∃ rows,
    Relational.get_tasks limit 0 search db =
      (Return (Response HTTP_200_OK rows), db) ∧
    r ∈ rows.
Proof.
  intros Hs Hn Hl Hr Hc. rewrite get_tasks_rows by (done || lia).
  eexists. split; [done|].
  change (Z.to_nat 0) with 0%nat. rewrite drop_0.
  rewrite take_ge.
  2:{ etrans; [apply length_filter | lia]. }
  apply list_elem_of_filter. split; [|done].
  apply Is_true_true. by apply like_contains.
Qed.

Lemma get_tasks_lists_literal_matches_witness :
  ∃ rows,
    Relational.get_tasks
      (Z.of_nat (List.length (Relational.tasks Relational.one_task))) 0
      "y m" Relational.one_task =
      (Return (Response HTTP_200_OK rows), Relational.one_task) ∧
    Relational.models.mkTask 1 "Buy milk" None false 0 ∈ rows.
Proof.
  apply (get_tasks_lists_literal_matches _ "y m" Relational.one_task);
    [reflexivity | reflexivity | split; [reflexivity | reflexivity]
    | compute_done | by exists "Bu", "ilk"].
Defined.

(** X22.  The list at its bounds: for counts that are not negative and
    below 2^63 and a search term without NUL, a [limit] of 0, or a [skip]
    that is at least the number of stored tasks, is answered 200 with the
    empty list. *)
Theorem get_tasks_empty_page (limit skip : Z) (search : string)
  (db : Relational.database) :
  bindable search = true →
  0 ≤ limit < 2 ^ 63 → 0 ≤ skip < 2 ^ 63 →
  limit = 0 ∨ Z.of_nat (List.length (Relational.tasks db)) ≤ skip →
  Relational.get_tasks limit skip search db =
    (Return (Response HTTP_200_OK []), db).
Proof.
  intros Hn Hl Hs Hedge. rewrite get_tasks_rows by done.
  destruct Hedge as [-> | Hskip]; [done|].
  rewrite drop_ge; [by rewrite take_nil|].
  etrans; [apply length_filter | lia].
Qed.

Lemma get_tasks_empty_page_witness :
  Relational.get_tasks 0 0 "" Relational.one_task =
    (Return (Response HTTP_200_OK []), Relational.one_task) ∧
  Relational.get_tasks 10 1 "" Relational.one_task =
    (Return (Response HTTP_200_OK []), Relational.one_task).
Proof.
  split.
  - apply get_tasks_empty_page; [reflexivity | lia | lia | by left].
  - apply get_tasks_empty_page;
      [reflexivity | lia | lia | right; by apply Z.leb_le].
Defined.

(** X23.  Relational update that sets [name] or [completed] to [null] on
    a stored id is never applied: the handler raises, the client sees
    status 500, and the database is as it was.  When the texts the update
    sets hold no NUL, what it raises is the database error of the table
    ([nullable=False]). *)
Theorem relational_update_null_refused (task_id : Z)
  (u : Relational.schemas.TaskUpdate.t) (db : Relational.database)
  (stored : Relational.models.Task) :
  Relational.query_first db task_id = Some stored →
  Relational.schemas.TaskUpdate.name u = Some None ∨
  Relational.schemas.TaskUpdate.completed u = Some None →
  (∃ e, Relational.update_task task_id u db = (Raise e, db)) ∧
  status_of (Relational.update_task task_id u db).1 = 500 ∧
  ((∀ n, Relational.schemas.TaskUpdate.name u = Some (Some n) →
         bindable n = true) →
   (∀ d, Relational.schemas.TaskUpdate.description u = Some (Some d) →
         bindable d = true) →
   Relational.update_task task_id u db =
     (Raise Relational.IntegrityError, db)).
Proof.
  intros Hq Hnull.
  assert (Relational.patched u stored = None) as Hp.
  { destruct u as [[[n|]|] d [[c|]|]]; simpl in Hnull;
      destruct Hnull as [Hnull|Hnull]; done. }
  destruct (forallb bindable_value (Relational.sends u stored)) eqn:Hb.
  - rewrite (update_task_refused _ _ _ _ Hq Hp Hb).
    split; [by eexists|]. done.
  - rewrite (update_task_unbindable _ _ _ stored Hq) by (done || congruence).
    split; [by eexists|]. split; [done|].
    intros Hn Hd. by rewrite (sends_bindable u stored Hn Hd) in Hb.
Qed.

Lemma relational_update_null_refused_witness :
  Relational.update_task 1
    (Relational.schemas.TaskUpdate.mk (Some None) None None)
    Relational.one_task =
    (Raise Relational.IntegrityError, Relational.one_task) ∧
  status_of
    (Relational.update_task 1
       (Relational.schemas.TaskUpdate.mk (Some None) None None)
       Relational.one_task).1 = 500.
Proof.
  destruct (relational_update_null_refused 1
              (Relational.schemas.TaskUpdate.mk (Some None) None None)
              Relational.one_task
              (Relational.models.mkTask 1 "Buy milk" None false 0))
    as (_ & Hstatus & Herr); [reflexivity | by left |].
  split; [apply Herr; intros ? [=] | exact Hstatus].
Defined.

(** ** The session dependency *)

(** X24.  Both [get_db] close the session exactly once, as their last
    call, however the request ended: normally, by an exception of any
    kind, or by the generator being closed. *)
Theorem get_db_closes_once (r : Database.resume) :
  (∃ calls,
     (Database.Postgresql.get_db r).1 = calls ++ [Database.close] ∧
     Database.close ∉ calls) ∧
  (∃ calls,
     (Database.fastapiEx.get_db r).1 = calls ++ [Database.close] ∧
     Database.close ∉ calls).
Proof.
  split.
  - destruct r as [|[c d|loc|key|msg| |msg]]; simpl;
      try (exists []; split; [done | apply not_elem_of_nil]).
    exists [Database.print ("An error occurred: " +:+ msg); Database.rollback].
    split; [done|]. rewrite !not_elem_of_cons.
    repeat split; [done | done | apply not_elem_of_nil].
  - exists []. split; [by destruct r | apply not_elem_of_nil].
Qed.

(** X25.  An exception that is not a [SQLAlchemyError], such as the 404 a
    handler raises for an id that is not stored, goes through both
    [get_db] as it is, with [close] the only call on the session. *)
Theorem get_db_passes_other_exceptions (e : exn) :
  (∀ msg, e ≠ SQLAlchemyError msg) →
  Database.Postgresql.get_db (Database.throw e) =
    ([Database.close], Raise e) ∧
  Database.fastapiEx.get_db (Database.throw e) =
    ([Database.close], Raise e) ∧
  ∀ A (handled : outcome A),
    handled = Raise e →
    Database.with_db Database.Postgresql.get_db handled =
      ([Database.close], Raise e).
Proof.
  intros He. repeat split.
  - destruct e; try done. by destruct (He msg).
  - intros A handled ->. simpl. destruct e; try done. by destruct (He msg).
Qed.

Lemma get_db_passes_other_exceptions_witness :
  Database.with_db Database.Postgresql.get_db
    (Relational.get_task 999 Relational.create_all).1 =
    ([Database.close], Raise (Relational.not_found 999)).
Proof.
  apply (get_db_passes_other_exceptions (Relational.not_found 999));
    [intros msg; discriminate | reflexivity].
Defined.
